(** * Streaming protocol decoder of nextjs-react-sse-starter

    A shallow embedding of the two stream consumers of the repository,
    [app/debug/page.tsx] (compact prefixes [0:], [9:], [a:], [e:]) and
    [app/page.tsx] (semantic prefixes [TEXT:], [FUNC:], ...), and the
    properties of their line reassembly, decoding and dispatch.

    JavaScript strings are sequences of UTF-16 code units: [list Z].
    Byte chunks delivered by the body reader are [list byte].  React
    state cells become fields of a record that is threaded through the
    handlers; a functional updater [setX(prev => f prev)] is the field
    update [f].  What the handlers write to the console is not part of
    the state.  [JSON.parse], [TextDecoder], [String.prototype.trim]
    and the string coercion of values are modelled after their
    standards, as far as the two pages depend on them. *)

From Stdlib Require Import ZArith List Bool Lia.
From Stdlib Require Import Strings.String Strings.Ascii Strings.Byte.
Import ListNotations.
Local Open Scope Z_scope.
#[local] Set Warnings "-register-all".

(** ** JavaScript strings *)

Module JsString.

Definition codeunit := Z.
Definition jsstring := list codeunit.

(** An ASCII literal as a JavaScript string. *)
Fixpoint js (s : string) : jsstring :=
  match s with
  | EmptyString => []
  | String c r => Z.of_N (N_of_ascii c) :: js r
  end.

Fixpoint eqb (a b : jsstring) : bool :=
  match a, b with
  | [], [] => true
  | x :: a', y :: b' => (x =? y) && eqb a' b'
  | _, _ => false
  end.

(** [s.startsWith(p)] *)
Fixpoint startsWith (s p : jsstring) : bool :=
  match p with
  | [] => true
  | x :: p' =>
      match s with
      | [] => false
      | c :: s' => (c =? x) && startsWith s' p'
      end
  end.

(** [s.slice(n)] for a start index [n >= 0]. *)
Definition slice (n : nat) (s : jsstring) : jsstring := skipn n s.

(** WhiteSpace and LineTerminator code points of ECMAScript, the ones
    [String.prototype.trim] removes. *)
Definition isWhiteSpace (c : codeunit) : bool :=
  (c =? 9) || (c =? 10) || (c =? 11) || (c =? 12) || (c =? 13) ||
  (c =? 32) || (c =? 160) || (c =? 5760) ||
  ((8192 <=? c) && (c <=? 8202)) ||
  (c =? 8232) || (c =? 8233) || (c =? 8239) || (c =? 8287) ||
  (c =? 12288) || (c =? 65279).

Fixpoint trimStart (s : jsstring) : jsstring :=
  match s with
  | [] => []
  | c :: r => if isWhiteSpace c then trimStart r else s
  end.

Definition trimEnd (s : jsstring) : jsstring := rev (trimStart (rev s)).

Definition trim (s : jsstring) : jsstring := trimEnd (trimStart s).

(** Truthiness of a string: non-empty. *)
Definition truthy (s : jsstring) : bool :=
  match s with [] => false | _ :: _ => true end.

Definition LF : codeunit := 10.

(** [s.split('\n')]: the segments between line feeds; never empty. *)
Fixpoint split_nl (s : jsstring) : list jsstring :=
  match s with
  | [] => [[]]
  | c :: r =>
      if c =? LF then [] :: split_nl r
      else match split_nl r with
           | [] => [[c]]
           | l :: ls => (c :: l) :: ls
           end
  end.

(** [a.pop()]: the last element, if any, and the array without it. *)
Definition pop {A : Type} (a : list A) : option A * list A :=
  match rev a with
  | [] => (None, [])
  | x :: r => (Some x, rev r)
  end.

(** Decimal rendering of a non-negative integer, as [String(n)] gives
    for an integral Number in the safe range. *)
Fixpoint digits_fuel (fuel : nat) (n : Z) (acc : jsstring) : jsstring :=
  match fuel with
  | O => acc
  | S f =>
      let acc' := (48 + n mod 10) :: acc in
      if n <? 10 then acc' else digits_fuel f (n / 10) acc'
  end.

Definition decimal (n : Z) : jsstring :=
  digits_fuel (S (Z.to_nat (Z.log2 n))) n [].

End JsString.
Import JsString.

(** ** The UTF-8 decoder behind [new TextDecoder()]

    The decoder of the Encoding standard, run with [{ stream: true }]:
    its state survives from one [decode] call to the next, malformed
    input yields U+FFFD (the decoder is not fatal), and a leading byte
    order mark is removed once. *)

Module TextDecoder.

Record utf8 := {
  code_point : Z;
  bytes_seen : Z;
  bytes_needed : Z;
  lower_boundary : Z;
  upper_boundary : Z
}.

Definition utf8_init : utf8 :=
  {| code_point := 0; bytes_seen := 0; bytes_needed := 0;
     lower_boundary := 128; upper_boundary := 191 |}.

Definition between (lo b hi : Z) : bool := (lo <=? b) && (b <=? hi).

(** A byte read while no sequence is pending. *)
Definition lead (b : Z) : utf8 * list Z :=
  if between 0 b 127 then (utf8_init, [b])
  else if between 194 b 223 then
    ({| code_point := Z.land b 31; bytes_seen := 0; bytes_needed := 1;
        lower_boundary := 128; upper_boundary := 191 |}, [])
  else if between 224 b 239 then
    ({| code_point := Z.land b 15; bytes_seen := 0; bytes_needed := 2;
        lower_boundary := (if b =? 224 then 160 else 128);
        upper_boundary := (if b =? 237 then 159 else 191) |}, [])
  else if between 240 b 244 then
    ({| code_point := Z.land b 7; bytes_seen := 0; bytes_needed := 3;
        lower_boundary := (if b =? 240 then 144 else 128);
        upper_boundary := (if b =? 244 then 143 else 191) |}, [])
  else (utf8_init, [65533]).

(** The handler of the standard: the new state and the code points
    emitted for one byte.  A byte that breaks a pending sequence emits
    U+FFFD and is then read again as a lead byte. *)
Definition handler (d : utf8) (b : Z) : utf8 * list Z :=
  if bytes_needed d =? 0 then lead b
  else if negb (between (lower_boundary d) b (upper_boundary d)) then
    let (d', out) := lead b in (d', 65533 :: out)
  else
    let cp := Z.lor (Z.shiftl (code_point d) 6) (Z.land b 63) in
    let seen := bytes_seen d + 1 in
    if seen =? bytes_needed d then (utf8_init, [cp])
    else ({| code_point := cp; bytes_seen := seen;
             bytes_needed := bytes_needed d;
             lower_boundary := 128; upper_boundary := 191 |}, []).

(** A scalar value as UTF-16 code units. *)
Definition utf16 (cp : Z) : jsstring :=
  if cp <? 65536 then [cp]
  else [55296 + Z.shiftr (cp - 65536) 10; 56320 + Z.land (cp - 65536) 1023].

Record t := { dec : utf8; BOM_seen : bool }.

Definition new : t := {| dec := utf8_init; BOM_seen := false |}.

(** Serialising the emitted code points: the first one is dropped when
    it is the byte order mark. *)
Fixpoint serialize (seen : bool) (cps : list Z) : bool * jsstring :=
  match cps with
  | [] => (seen, [])
  | cp :: r =>
      let (seen', out) := serialize true r in
      (seen', (if negb seen && (cp =? 65279) then [] else utf16 cp) ++ out)
  end.

Definition step (d : t) (b : byte) : t * jsstring :=
  let (u, cps) := handler (dec d) (Z.of_N (Byte.to_N b)) in
  let (seen, out) := serialize (BOM_seen d) cps in
  ({| dec := u; BOM_seen := seen |}, out).

(** [decoder.decode(value, { stream: true })] *)
Fixpoint decode (d : t) (value : list byte) : t * jsstring :=
  match value with
  | [] => (d, [])
  | b :: r =>
      let (d1, o1) := step d b in
      let (d2, o2) := decode d1 r in
      (d2, o1 ++ o2)
  end.

End TextDecoder.

(** ** Chunk reassembly ([startStreaming], debug page, the read loop) *)

Module Reassembler.

Record state := {
  decoder : TextDecoder.t;
  buffer : jsstring
}.

Definition init : state :=
  {| decoder := TextDecoder.new; buffer := [] |}.

(** [x || ''] for a popped line. *)
Definition or_empty (x : option jsstring) : jsstring :=
  match x with
  | Some s => if truthy s then s else []
  | None => []
  end.

(** One turn of the loop for a chunk [value]: decode, append to the
    buffer, split, keep the last segment. The complete lines are
    returned in order. *)
Definition feed (st : state) (value : list byte) : state * list jsstring :=
  let (d, chunk) := TextDecoder.decode (decoder st) value in
  let buffer1 := buffer st ++ chunk in
  let (last_line, lines) := pop (split_nl buffer1) in
  ({| decoder := d; buffer := or_empty last_line |}, lines).

(** The lines produced by a sequence of chunks, in order. *)
Fixpoint feed_all (st : state) (chunks : list (list byte))
  : state * list jsstring :=
  match chunks with
  | [] => (st, [])
  | c :: r =>
      let (st1, l1) := feed st c in
      let (st2, l2) := feed_all st1 r in
      (st2, l1 ++ l2)
  end.

End Reassembler.

(** ** JSON values and [JSON.parse] *)

Module Json.

(** A JSON number, kept as the exact decimal value of its literal:
    [(-1)^negative * mantissa * 10^exponent10].  The rounding to a
    binary64 value is only modelled where the code looks at it, in
    [rounds_to_zero]. *)
Record JsNumber := {
  negative : bool;
  mantissa : Z;
  exponent10 : Z
}.

Inductive JsonValue :=
| JNull
| JBool (b : bool)
| JNumber (n : JsNumber)
| JString (s : jsstring)
| JArray (elements : list JsonValue)
| JObject (members : list (jsstring * JsonValue)).

(** The Number of the literal is [+0] or [-0]: the mantissa is zero, or
    the value is at most [2^-1075] in magnitude (half the least
    subnormal, ties to even). *)
Definition rounds_to_zero (n : JsNumber) : bool :=
  (mantissa n =? 0) ||
  ((exponent10 n <? 0) &&
   (mantissa n * 2 ^ 1075 <=? 10 ^ (- exponent10 n))).

(** ToBoolean *)
Definition truthy (v : JsonValue) : bool :=
  match v with
  | JNull => false
  | JBool b => b
  | JNumber n => negb (rounds_to_zero n)
  | JString s => JsString.truthy s
  | JArray _ => true
  | JObject _ => true
  end.

(** Own property lookup; [JSON.parse] lets the last of several equal
    keys win. *)
Fixpoint get_own (k : jsstring) (ms : list (jsstring * JsonValue))
  : option JsonValue :=
  match ms with
  | [] => None
  | (k', v) :: r =>
      match get_own k r with
      | Some w => Some w
      | None => if JsString.eqb k k' then Some v else None
      end
  end.

(** [v.k] for a value that is neither null nor undefined; [None] is
    [undefined].  The members of a parsed object are data properties;
    primitives and arrays have no property of the names the code asks
    for. *)
Definition get (v : JsonValue) (k : jsstring) : option JsonValue :=
  match v with
  | JObject ms => get_own k ms
  | _ => None
  end.

Inductive result (A : Type) :=
| Ok (a : A) (rest : jsstring)
| SyntaxError
| OutOfFuel.
Arguments Ok {A} a rest.
Arguments SyntaxError {A}.
Arguments OutOfFuel {A}.

Definition is_ws (c : codeunit) : bool :=
  (c =? 9) || (c =? 10) || (c =? 13) || (c =? 32).

Fixpoint skip_ws (s : jsstring) : jsstring :=
  match s with
  | [] => []
  | c :: r => if is_ws c then skip_ws r else s
  end.

Definition is_digit (c : codeunit) : bool := (48 <=? c) && (c <=? 57).

Definition hex_digit (c : codeunit) : option Z :=
  if is_digit c then Some (c - 48)
  else if (97 <=? c) && (c <=? 102) then Some (c - 87)
  else if (65 <=? c) && (c <=? 70) then Some (c - 55)
  else None.

Definition hex4 (a b c d : codeunit) : option codeunit :=
  match hex_digit a, hex_digit b, hex_digit c, hex_digit d with
  | Some x, Some y, Some z, Some w => Some (((x * 16 + y) * 16 + z) * 16 + w)
  | _, _, _, _ => None
  end.

(** The character a single-letter escape stands for. *)
Definition escape (c : codeunit) : option codeunit :=
  if c =? 34 then Some 34
  else if c =? 92 then Some 92
  else if c =? 47 then Some 47
  else if c =? 98 then Some 8
  else if c =? 102 then Some 12
  else if c =? 110 then Some 10
  else if c =? 114 then Some 13
  else if c =? 116 then Some 9
  else None.

Definition cons_char (c : codeunit) (r : option (jsstring * jsstring))
  : option (jsstring * jsstring) :=
  match r with
  | Some (s, rest) => Some (c :: s, rest)
  | None => None
  end.

(** The characters of a string literal after its opening quote, up to
    and including the closing quote. *)
Fixpoint string_chars (s : jsstring) : option (jsstring * jsstring) :=
  match s with
  | [] => None
  | c :: r =>
      if c =? 34 then Some ([], r)
      else if c =? 92 then
        match r with
        | [] => None
        | e :: r1 =>
            if e =? 117 then
              match r1 with
              | h1 :: h2 :: h3 :: h4 :: r2 =>
                  match hex4 h1 h2 h3 h4 with
                  | Some u => cons_char u (string_chars r2)
                  | None => None
                  end
              | _ => None
              end
            else
              match escape e with
              | Some x => cons_char x (string_chars r1)
              | None => None
              end
        end
      else if c <? 32 then None
      else cons_char c (string_chars r)
  end.

(** A maximal run of digits: its value, its length, and what follows. *)
Fixpoint digits (s : jsstring) (acc : Z) (len : Z) : Z * Z * jsstring :=
  match s with
  | [] => (acc, len, [])
  | c :: r =>
      if is_digit c then digits r (acc * 10 + (c - 48)) (len + 1)
      else (acc, len, s)
  end.

(** [0] or a digit run that does not start with [0]. *)
Definition int_part (s : jsstring) : option (Z * jsstring) :=
  match s with
  | [] => None
  | c :: r =>
      if c =? 48 then Some (0, r)
      else if is_digit c then
        let '(v, _, rest) := digits s 0 0 in Some (v, rest)
      else None
  end.

(** An optional fraction: the mantissa extended by the fraction digits
    and the number of those digits. *)
Definition frac_part (m : Z) (s : jsstring) : option (Z * Z * jsstring) :=
  match s with
  | c :: r =>
      if c =? 46 then
        let '(v, len, rest) := digits r m 0 in
        if len =? 0 then None else Some (v, len, rest)
      else Some (m, 0, s)
  | [] => Some (m, 0, s)
  end.

Definition exp_digits (neg : bool) (s : jsstring) : option (Z * jsstring) :=
  let '(v, len, rest) := digits s 0 0 in
  if len =? 0 then None else Some (if neg then - v else v, rest).

Definition exp_part (s : jsstring) : option (Z * jsstring) :=
  match s with
  | c :: r =>
      if (c =? 101) || (c =? 69) then
        match r with
        | sg :: r1 =>
            if sg =? 43 then exp_digits false r1
            else if sg =? 45 then exp_digits true r1
            else exp_digits false r
        | [] => None
        end
      else Some (0, s)
  | [] => Some (0, s)
  end.

Definition unsigned_number (neg : bool) (s : jsstring) : result JsNumber :=
  match int_part s with
  | None => SyntaxError
  | Some (i, r1) =>
      match frac_part i r1 with
      | None => SyntaxError
      | Some (m, flen, r2) =>
          match exp_part r2 with
          | None => SyntaxError
          | Some (e, r3) =>
              Ok {| negative := neg; mantissa := m;
                    exponent10 := e - flen |} r3
          end
      end
  end.

Definition number (s : jsstring) : result JsNumber :=
  match s with
  | c :: r => if c =? 45 then unsigned_number true r
              else unsigned_number false s
  | [] => SyntaxError
  end.

(** A keyword literal. *)
Definition keyword (w : jsstring) (v : JsonValue) (s : jsstring)
  : result JsonValue :=
  if startsWith s w then Ok v (skipn (List.length w) s) else SyntaxError.

(** The value grammar.  [value] skips leading white space only; each
    call consumes at least one character or fails, so the fuel
    [2 * length s + 1] of [parse] is never used up. *)
Fixpoint value (fuel : nat) (s : jsstring) : result JsonValue :=
  match fuel with
  | O => OutOfFuel
  | S f =>
      match skip_ws s with
      | [] => SyntaxError
      | c :: r =>
          if c =? 123 then
            match skip_ws r with
            | c1 :: r1 =>
                if c1 =? 125 then Ok (JObject []) r1
                else members f (c1 :: r1) []
            | [] => SyntaxError
            end
          else if c =? 91 then
            match skip_ws r with
            | c1 :: r1 =>
                if c1 =? 93 then Ok (JArray []) r1
                else elements f (c1 :: r1) []
            | [] => SyntaxError
            end
          else if c =? 34 then
            match string_chars r with
            | Some (str, rest) => Ok (JString str) rest
            | None => SyntaxError
            end
          else if c =? 116 then keyword (js "true") (JBool true) (c :: r)
          else if c =? 102 then keyword (js "false") (JBool false) (c :: r)
          else if c =? 110 then keyword (js "null") JNull (c :: r)
          else
            match number (c :: r) with
            | Ok n rest => Ok (JNumber n) rest
            | SyntaxError => SyntaxError
            | OutOfFuel => OutOfFuel
            end
      end
  end

with elements (fuel : nat) (s : jsstring) (acc : list JsonValue)
  : result JsonValue :=
  match fuel with
  | O => OutOfFuel
  | S f =>
      match value f s with
      | Ok v rest =>
          match skip_ws rest with
          | c :: r =>
              if c =? 44 then elements f r (v :: acc)
              else if c =? 93 then Ok (JArray (rev (v :: acc))) r
              else SyntaxError
          | [] => SyntaxError
          end
      | SyntaxError => SyntaxError
      | OutOfFuel => OutOfFuel
      end
  end

with members (fuel : nat) (s : jsstring) (acc : list (jsstring * JsonValue))
  : result JsonValue :=
  match fuel with
  | O => OutOfFuel
  | S f =>
      match skip_ws s with
      | q :: r0 =>
          if q =? 34 then
            match string_chars r0 with
            | Some (k, r1) =>
                match skip_ws r1 with
                | col :: r2 =>
                    if col =? 58 then
                      match value f r2 with
                      | Ok v rest =>
                          match skip_ws rest with
                          | c :: r =>
                              if c =? 44 then members f r ((k, v) :: acc)
                              else if c =? 125
                              then Ok (JObject (rev ((k, v) :: acc))) r
                              else SyntaxError
                          | [] => SyntaxError
                          end
                      | SyntaxError => SyntaxError
                      | OutOfFuel => OutOfFuel
                      end
                    else SyntaxError
                | [] => SyntaxError
                end
            | None => SyntaxError
            end
          else SyntaxError
      | [] => SyntaxError
      end
  end.

(** [JSON.parse(text)]: [None] when it throws a SyntaxError. *)
Definition parse (text : jsstring) : option JsonValue :=
  match value (2 * List.length text + 1) text with
  | Ok v rest => match skip_ws rest with [] => Some v | _ :: _ => None end
  | _ => None
  end.

End Json.
Import Json.

(** ** Errors and the transport *)

Module Transport.

(** A thrown value, as the handlers look at it: whether it is an
    [Error], its [name], and what [String(error)] gives. *)
Record JsError := {
  instanceof_Error : bool;
  name : jsstring;
  to_string : jsstring
}.

(** [new Error(message)] *)
Definition Error (message : jsstring) : JsError :=
  {| instanceof_Error := true;
     name := js "Error";
     to_string := if JsString.truthy message
                  then js "Error: " ++ message else js "Error" |}.

(** What [reader.read()] settles to; the end of the list of reads is
    [{ done: true }]. *)
Inductive read_result :=
| Value (value : list byte)
| ReadRejected (e : JsError).

Record Response := {
  status : Z;
  body : option (list read_result)
}.

(** [response.ok]: the status is in the range 200 to 299. *)
Definition ok (r : Response) : bool :=
  (200 <=? status r) && (status r <=? 299).

(** What [fetch] settles to. *)
Inductive fetch_result :=
| FetchRejected (e : JsError)
| FetchResolved (r : Response).

End Transport.
Import Transport.

(** ** The debug console, [app/debug/page.tsx] *)

Module DebugPage.

Inductive EventType :=
| content
| tool_call
| tool_result
| stream_end
| unknown.

Record StreamEvent := {
  timestamp : jsstring;
  prefix : jsstring;
  data : jsstring;
  parsed : option JsonValue;
  type : EventType
}.

(** [try { parsed = JSON.parse(data) } catch (e) { parsed = data }] *)
Definition parse_or_raw (data : jsstring) : JsonValue :=
  match Json.parse data with
  | Some v => v
  | None => JString data
  end.

(** [parseStreamEvent(line)]; [now] is what
    [new Date().toISOString()] returns at the call. *)
Definition parseStreamEvent (now : jsstring) (line : jsstring) : StreamEvent :=
  if startsWith line (js "0:") then
    let data := slice 2 line in
    {| timestamp := now; prefix := js "0"; data := data;
       parsed := Some (parse_or_raw data); type := content |}
  else if startsWith line (js "9:") then
    let data := slice 2 line in
    {| timestamp := now; prefix := js "9"; data := data;
       parsed := Some (parse_or_raw data); type := tool_call |}
  else if startsWith line (js "a:") then
    let data := slice 2 line in
    {| timestamp := now; prefix := js "a"; data := data;
       parsed := Some (parse_or_raw data); type := tool_result |}
  else if startsWith line (js "e:") then
    let data := slice 2 line in
    {| timestamp := now; prefix := js "e"; data := data;
       parsed := Some (parse_or_raw data); type := stream_end |}
  else
    {| timestamp := now; prefix := js "unknown"; data := line;
       parsed := None; type := unknown |}.

(** The state cells of the component, and [ticks], the number of times
    the clock has been read. *)
Record page := {
  events : list StreamEvent;
  input : jsstring;
  isStreaming : bool;
  abortControllerRef : option bool;
  ticks : nat
}.

Definition setEvents (f : list StreamEvent -> list StreamEvent) (p : page) :=
  {| events := f (events p); input := input p;
     isStreaming := isStreaming p;
     abortControllerRef := abortControllerRef p; ticks := ticks p |}.

Definition setIsStreaming (b : bool) (p : page) :=
  {| events := events p; input := input p; isStreaming := b;
     abortControllerRef := abortControllerRef p; ticks := ticks p |}.

Definition set_abortControllerRef (c : option bool) (p : page) :=
  {| events := events p; input := input p; isStreaming := isStreaming p;
     abortControllerRef := c; ticks := ticks p |}.

Definition tick (p : page) :=
  {| events := events p; input := input p; isStreaming := isStreaming p;
     abortControllerRef := abortControllerRef p; ticks := S (ticks p) |}.

Section Loop.

(** The successive readings of the clock. *)
Variable clock : nat -> jsstring.

(** [for (const line of lines) { if (line.trim()) { ... } }] *)
Fixpoint process_lines (p : page) (lines : list jsstring) : page :=
  match lines with
  | [] => p
  | line :: r =>
      if JsString.truthy (trim line) then
        let event := parseStreamEvent (clock (ticks p)) line in
        process_lines (setEvents (fun prev => prev ++ [event]) (tick p)) r
      else process_lines p r
  end.

(** [while (true)]: the reads in turn; [done] breaks, a rejected read
    throws. *)
Fixpoint read_loop (st : Reassembler.state) (p : page)
  (reads : list read_result) : page * option JsError :=
  match reads with
  | [] => (p, None)
  | Value value :: r =>
      let (st1, lines) := Reassembler.feed st value in
      read_loop st1 (process_lines p lines) r
  | ReadRejected e :: _ => (p, Some e)
  end.

(** The [catch] clause. *)
Definition catch (error : JsError) (p : page) : page :=
  if instanceof_Error error && JsString.eqb (name error) (js "AbortError")
  then p
  else
    setEvents (fun prev => prev ++
      [{| timestamp := clock (ticks p); prefix := js "error";
          data := js "Error: " ++ to_string error;
          parsed := None; type := unknown |}]) (tick p).

(** The [try] block after the three initial assignments. *)
Definition try_body (p : page) (f : fetch_result) : page * option JsError :=
  match f with
  | FetchRejected e => (p, Some e)
  | FetchResolved response =>
      if negb (ok response) then
        (p, Some (Error (js "HTTP error! status: " ++
                         decimal (status response))))
      else
        match body response with
        | None => (p, Some (Error (js "No reader available")))
        | Some reads => read_loop Reassembler.init p reads
        end
  end.

(** [startStreaming()] against a transport that behaves as [f]. *)
Definition startStreaming (p : page) (f : fetch_result) : page :=
  let p1 := set_abortControllerRef (Some false)
              (setIsStreaming true (setEvents (fun _ => []) p)) in
  let (p2, thrown) := try_body p1 f in
  let p3 := match thrown with
            | Some error => catch error p2
            | None => p2
            end in
  setIsStreaming false p3.

End Loop.

(** [stopStreaming()] *)
Definition stopStreaming (p : page) : page :=
  match abortControllerRef p with
  | Some _ => set_abortControllerRef (Some true) p
  | None => p
  end.

Definition clearEvents (p : page) : page := setEvents (fun _ => []) p.

End DebugPage.

(** ** The custom protocol demo, [app/page.tsx] *)

Module CustomProtocolDemo.

Module PROTOCOL.
Definition TEXT := js "TEXT:".
Definition FUNC_REQ := js "FUNC:".
Definition FUNC_RES := js "RESP:".
Definition META := js "META:".
Definition DEBUG := js "DEBUG:".
End PROTOCOL.

Inductive EventType :=
| text
| function_call
| function_response
| metadata
| debug.

Record CustomStreamEvent := {
  type : EventType;
  data : JsonValue;
  timestamp : jsstring;
  raw : jsstring
}.

(** One branch of [parseStreamLine]: the payload after the prefix [p],
    trimmed, goes to [JSON.parse]; a SyntaxError is caught, logged, and
    [null] is returned. *)
Definition branch (ty : EventType) (p : jsstring) (now line : jsstring)
  : option CustomStreamEvent :=
  let data := trim (slice (List.length p) line) in
  match Json.parse data with
  | Some parsed =>
      Some {| type := ty; data := parsed; timestamp := now; raw := line |}
  | None => None
  end.

(** [parseStreamLine(line)]; [None] is [null]. *)
Definition parseStreamLine (now : jsstring) (line : jsstring)
  : option CustomStreamEvent :=
  if negb (JsString.truthy (trim line)) then None
  else if startsWith line PROTOCOL.TEXT then
    branch text PROTOCOL.TEXT now line
  else if startsWith line PROTOCOL.FUNC_REQ then
    branch function_call PROTOCOL.FUNC_REQ now line
  else if startsWith line PROTOCOL.FUNC_RES then
    branch function_response PROTOCOL.FUNC_RES now line
  else if startsWith line PROTOCOL.META then
    branch metadata PROTOCOL.META now line
  else if startsWith line PROTOCOL.DEBUG then
    branch debug PROTOCOL.DEBUG now line
  else None.

(** The state cells of the component; [ticks] counts the readings of
    the clock, and [render_error] records that a state updater threw
    while React applied it, after which the page is no longer shown. *)
Record page := {
  userInput : jsstring;
  responseText : jsstring;
  isStreaming : bool;
  events : list CustomStreamEvent;
  abortControllerRef : option bool;
  ticks : nat;
  render_error : bool
}.

Definition setEvents
  (f : list CustomStreamEvent -> list CustomStreamEvent) (p : page) :=
  {| userInput := userInput p; responseText := responseText p;
     isStreaming := isStreaming p; events := f (events p);
     abortControllerRef := abortControllerRef p; ticks := ticks p;
     render_error := render_error p |}.

Definition setIsStreaming (b : bool) (p : page) :=
  {| userInput := userInput p; responseText := responseText p;
     isStreaming := b; events := events p;
     abortControllerRef := abortControllerRef p; ticks := ticks p;
     render_error := render_error p |}.

(** [setResponseText(f)] where the updater [f] may throw ([None]). *)
Definition setResponseText (f : jsstring -> option jsstring) (p : page) :=
  match f (responseText p) with
  | Some s =>
      {| userInput := userInput p; responseText := s;
         isStreaming := isStreaming p; events := events p;
         abortControllerRef := abortControllerRef p; ticks := ticks p;
         render_error := render_error p |}
  | None =>
      {| userInput := userInput p; responseText := responseText p;
         isStreaming := isStreaming p; events := events p;
         abortControllerRef := abortControllerRef p; ticks := ticks p;
         render_error := true |}
  end.

Definition set_abortControllerRef (c : option bool) (p : page) :=
  {| userInput := userInput p; responseText := responseText p;
     isStreaming := isStreaming p; events := events p;
     abortControllerRef := c; ticks := ticks p;
     render_error := render_error p |}.

Definition tick (p : page) :=
  {| userInput := userInput p; responseText := responseText p;
     isStreaming := isStreaming p; events := events p;
     abortControllerRef := abortControllerRef p; ticks := S (ticks p);
     render_error := render_error p |}.

(** [abortControllerRef.current?.signal.aborted], as a condition *)
Definition aborted (p : page) : bool :=
  match abortControllerRef p with
  | Some a => a
  | None => false
  end.

(** How an [async] function call settles. *)
Inductive outcome := Returned | Threw.

(** What can happen while a stream loop waits out the delay after a
    chunk: the Stop button is pressed; the Start button is pressed,
    which runs [startStream] up to the delay after the first chunk of
    its own generator ([first], [None] for a generator that yields
    nothing); or the delay of another pending loop is over and that
    loop takes its next turn ([next], [None] when its generator is
    exhausted). *)
Inductive happening :=
| PressStop
| PressStart (first : option jsstring)
| OtherTurn (next : option jsstring).

Section Dispatch.

(** [Number.prototype.toString], the rendering of a binary64 value. *)
Variable Number_toString : JsNumber -> jsstring.

(** ToString of a parsed value; [None] is the TypeError of an object
    whose own [toString] member hides the inherited method.  Array
    elements that are [null] are rendered empty by [join]. *)
Fixpoint ToString (v : JsonValue) : option jsstring :=
  match v with
  | JNull => Some (js "null")
  | JBool true => Some (js "true")
  | JBool false => Some (js "false")
  | JNumber n => Some (Number_toString n)
  | JString s => Some s
  | JArray l =>
      (fix join (l : list JsonValue) : option jsstring :=
         match l with
         | [] => Some []
         | x :: r =>
             let sx := match x with JNull => Some [] | _ => ToString x end in
             match r with
             | [] => sx
             | _ :: _ =>
                 match sx, join r with
                 | Some a, Some b => Some (a ++ js "," ++ b)
                 | _, _ => None
                 end
             end
         end) l
  | JObject ms =>
      match get_own (js "toString") ms with
      | Some _ => None
      | None => Some (js "[object Object]")
      end
  end.

(** [prev + (data || '')] *)
Definition append_data (d : JsonValue) (prev : jsstring) : option jsstring :=
  if Json.truthy d then
    match ToString d with
    | Some s => Some (prev ++ s)
    | None => None
    end
  else Some (prev ++ []).

(** The [function-call] case: destructuring [event.data] throws on
    [null], and [functionRegistry[name]] throws when [name] has no
    property key.  The branches only write to the console. *)
Definition function_call_case (d : JsonValue) : outcome :=
  match d with
  | JNull => Threw
  | _ =>
      match Json.get d (js "name") with
      | Some name =>
          match ToString name with
          | Some _ => Returned
          | None => Threw
          end
      | None => Returned
      end
  end.

(** [processEvent(event)] *)
Definition processEvent (p : page) (event : CustomStreamEvent)
  : page * outcome :=
  let p1 := setEvents (fun prev => prev ++ [event]) p in
  match type event with
  | text => (setResponseText (append_data (data event)) p1, Returned)
  | function_call => (p1, function_call_case (data event))
  | function_response => (p1, Returned)
  | metadata => (p1, Returned)
  | debug => (p1, Returned)
  end.

(** The successive readings of the clock. *)
Variable clock : nat -> jsstring.

(** [for (const line of lines)], with [await processEvent(event)]. *)
Fixpoint process_lines (p : page) (lines : list jsstring) : page * outcome :=
  match lines with
  | [] => (p, Returned)
  | line :: r =>
      if JsString.truthy (trim line) then
        match parseStreamLine (clock (ticks p)) line with
        | Some event =>
            match processEvent (tick p) event with
            | (p1, Returned) => process_lines p1 r
            | (p1, Threw) => (p1, Threw)
            end
        | None => process_lines (tick p) r
        end
      else process_lines p r
  end.

(** [stopStream()] *)
Definition stopStream (p : page) : page :=
  match abortControllerRef p with
  | Some _ => setIsStreaming false (set_abortControllerRef (Some true) p)
  | None => p
  end.

(** The page as [startStream] sets it before its loop: flag set, text
    and log emptied, a new controller in the ref. *)
Definition begin_session (p : page) : page :=
  set_abortControllerRef (Some false)
    (setEvents (fun _ => [])
       (setResponseText (fun _ => Some [])
          (setIsStreaming true p))).

(** One turn of a stream loop that is not the one being followed, when
    its delay is over: [next] is what its generator yields, [None] when
    it is exhausted.  The loop ends when the generator is exhausted,
    when the signal in the ref is set or when the handling throws, and
    its [finally] clears the streaming flag; otherwise it waits
    again. *)
Definition loop_turn (p : page) (next : option jsstring) : page :=
  match next with
  | None => setIsStreaming false p
  | Some chunk =>
      if aborted p then setIsStreaming false p
      else
        match process_lines p (split_nl chunk) with
        | (p1, Returned) => p1
        | (p1, Threw) => setIsStreaming false p1
        end
  end.

(** What the browser runs while a loop waits out its delay. *)
Definition happens (p : page) (h : happening) : page :=
  match h with
  | PressStop => stopStream p
  | PressStart first =>
      if isStreaming p then p else loop_turn (begin_session p) first
  | OtherTurn next => loop_turn p next
  end.

(** [for await (const chunk of ...)].  Each chunk comes with what
    happens during the delay that follows it: the loop only gives up
    control to the browser in that delay, so this is where the handlers
    of the buttons and the turns of other loops run, on the same state
    cells and the same ref. *)
Fixpoint for_await (p : page) (stream : list (jsstring * list happening))
  : page * outcome :=
  match stream with
  | [] => (p, Returned)
  | (chunk, delay) :: r =>
      if aborted p then (p, Returned)
      else
        match process_lines p (split_nl chunk) with
        | (p1, Returned) => for_await (fold_left happens delay p1) r
        | (p1, Threw) => (p1, Threw)
        end
  end.

(** [startStream()], reading [stream] in place of the generator. *)
Definition startStream (p : page) (stream : list (jsstring * list happening))
  : page :=
  if isStreaming p then p
  else
    let (p2, _) := for_await (begin_session p) stream in
    setIsStreaming false p2.

End Dispatch.

(** [`] in a literal stands for the double quote. *)
Definition q (s : string) : jsstring :=
  map (fun c => if c =? 96 then 34 else c) (js s).

(** The chunks [simulateStream] yields. *)
Definition simulateStream : list jsstring :=
  [ q "DEBUG: {`event`:`stream_start`}" ++ [LF];
    q "TEXT: `I'll check the weather in San Francisco for you.`" ++ [LF];
    q "FUNC: {`id`:`func_123`,`name`:`get_current_weather`,`arguments`:{`latitude`:37.7749,`longitude`:-122.4194}}" ++ [LF];
    q "RESP: {`id`:`func_123`,`name`:`get_current_weather`,`success`:true,`result`:{`temperature`:68,`conditions`:`Foggy`}}" ++ [LF];
    q "TEXT: ` The current temperature in San Francisco is `" ++ [LF];
    q "TEXT: `68" ++ [176] ++ q "F`" ++ [LF];
    q "TEXT: ` with foggy conditions.`" ++ [LF];
    q "META: {`finishReason`:`stop`,`tokens`:{`prompt`:54,`completion`:42,`total`:96}}" ++ [LF] ].

End CustomProtocolDemo.

(** ** Vocabulary of the statements *)

(** The complete lines and the unterminated rest of a text, read off
    with an accumulator for the line in progress. *)
Fixpoint scan (acc : jsstring) (s : jsstring) : list jsstring * jsstring :=
  match s with
  | [] => ([], acc)
  | c :: t =>
      if c =? LF then let (ls, r) := scan [] t in (acc :: ls, r)
      else scan (acc ++ [c]) t
  end.

Definition no_LF (s : jsstring) : Prop := Forall (fun c => c <> LF) s.

(** The prefix table of the compact variant: prefix, the label the
    event carries in its [prefix] field, and the kind. *)
Definition compact_table
  : list (jsstring * (jsstring * DebugPage.EventType)) :=
  [ (js "0:", (js "0", DebugPage.content));
    (js "9:", (js "9", DebugPage.tool_call));
    (js "a:", (js "a", DebugPage.tool_result));
    (js "e:", (js "e", DebugPage.stream_end)) ].

(** The prefix table of the semantic variant. *)
Definition semantic_table
  : list (jsstring * CustomProtocolDemo.EventType) :=
  [ (CustomProtocolDemo.PROTOCOL.TEXT, CustomProtocolDemo.text);
    (CustomProtocolDemo.PROTOCOL.FUNC_REQ, CustomProtocolDemo.function_call);
    (CustomProtocolDemo.PROTOCOL.FUNC_RES,
     CustomProtocolDemo.function_response);
    (CustomProtocolDemo.PROTOCOL.META, CustomProtocolDemo.metadata);
    (CustomProtocolDemo.PROTOCOL.DEBUG, CustomProtocolDemo.debug) ].

(** The line starts with no prefix of the table. *)
Definition unmatched {A : Type} (table : list (jsstring * A))
  (line : jsstring) : bool :=
  forallb (fun entry => negb (startsWith line (fst entry))) table.

(** All characters are white space. *)
Definition blank (s : jsstring) : bool := forallb isWhiteSpace s.

(** The events the debug console decodes from a list of lines, the
    clock having been read [n] times before. *)
Fixpoint decoded_debug (clock : nat -> jsstring) (n : nat)
  (lines : list jsstring) : list DebugPage.StreamEvent :=
  match lines with
  | [] => []
  | line :: r =>
      if JsString.truthy (trim line)
      then DebugPage.parseStreamEvent (clock n) line
           :: decoded_debug clock (S n) r
      else decoded_debug clock n r
  end.

(** Whether dispatching the event throws; it does not depend on the
    page. *)
Definition dispatch_outcome (Number_toString : JsNumber -> jsstring)
  (e : CustomProtocolDemo.CustomStreamEvent) : CustomProtocolDemo.outcome :=
  match CustomProtocolDemo.type e with
  | CustomProtocolDemo.function_call =>
      CustomProtocolDemo.function_call_case Number_toString
        (CustomProtocolDemo.data e)
  | _ => CustomProtocolDemo.Returned
  end.

(** The events the demo page decodes from the lines of a chunk, in
    order: every non-null result of [parseStreamLine] on a line that is
    not blank, up to and including the first one whose dispatch throws
    (which ends the loop). *)
Fixpoint decoded_demo (Number_toString : JsNumber -> jsstring)
  (clock : nat -> jsstring) (n : nat) (lines : list jsstring)
  : list CustomProtocolDemo.CustomStreamEvent :=
  match lines with
  | [] => []
  | line :: r =>
      if JsString.truthy (trim line) then
        match CustomProtocolDemo.parseStreamLine (clock n) line with
        | Some e =>
            e :: match dispatch_outcome Number_toString e with
                 | CustomProtocolDemo.Returned =>
                     decoded_demo Number_toString clock (S n) r
                 | CustomProtocolDemo.Threw => []
                 end
        | None => decoded_demo Number_toString clock (S n) r
        end
      else decoded_demo Number_toString clock n r
  end.

(** [error instanceof Error && error.name === 'AbortError'] *)
Definition is_AbortError (e : JsError) : bool :=
  instanceof_Error e && JsString.eqb (name e) (js "AbortError").

(** The synthetic event that records a failure. *)
Definition error_event (now : jsstring) (e : JsError) : DebugPage.StreamEvent :=
  {| DebugPage.timestamp := now;
     DebugPage.prefix := js "error";
     DebugPage.data := js "Error: " ++ to_string e;
     DebugPage.parsed := None;
     DebugPage.type := DebugPage.unknown |}.

(** A response that delivers the chunks and then closes. *)
Definition delivered (chunks : list (list byte)) : fetch_result :=
  FetchResolved {| status := 200; body := Some (map Value chunks) |}.

(** The transport fails with [e] after delivering [chunks]: the request
    is rejected, the response is not a 2xx one, or a read is
    rejected. *)
Inductive transport_failure
  : fetch_result -> list (list byte) -> JsError -> Prop :=
| network_failure (e : JsError) :
    transport_failure (FetchRejected e) [] e
| http_failure (r : Response) :
    ok r = false ->
    transport_failure (FetchResolved r) []
      (Error (js "HTTP error! status: " ++ decimal (status r)))
| read_failure (r : Response) (chunks : list (list byte)) (e : JsError)
    (rest : list read_result) :
    ok r = true ->
    body r = Some (map Value chunks ++ ReadRejected e :: rest) ->
    transport_failure (FetchResolved r) chunks e.

(** The parser settles on [s]: it fails with a syntax error or returns
    a value and a strictly shorter rest; it does not run out of
    fuel. *)
Definition settles (r : Json.result JsonValue) (s : jsstring) : Prop :=
  r = Json.SyntaxError \/
  exists v rest, r = Json.Ok v rest /\
                 (List.length rest < List.length s)%nat.

(** ** Sample inputs *)

Module Samples.

Import CustomProtocolDemo.

(** A clock that always reads the same instant. *)
Definition clock0 (_ : nat) : jsstring := js "2024-01-01T00:00:00.000Z".

Definition now0 : jsstring := clock0 O.

(** A rendering of numbers that is right for the non-negative integers
    written without fraction or exponent, the only numbers the samples
    render. *)
Definition integer_toString (n : JsNumber) : jsstring :=
  decimal (mantissa n).

(** The bytes of [0:"é"], a line feed, and [9:{}]. *)
Definition stream0 : list byte :=
  [x30; x3a; x22; xc3; xa9; x22; x0a; x39; x3a; x7b; x7d].

(** The same bytes, cut inside the two-byte character and inside the
    second line. *)
Definition chunks0 : list (list byte) :=
  [[x30; x3a; x22; xc3]; [xa9; x22; x0a; x39]; [x3a; x7b; x7d]].

(** The bytes of [0:"A"] with no line feed after it. *)
Definition unterminated : list byte := [x30; x3a; x22; x41; x22].

(** The debug console as it is mounted. *)
Definition debug0 : DebugPage.page :=
  {| DebugPage.events := [];
     DebugPage.input := js "What's the weather like in New York?";
     DebugPage.isStreaming := false;
     DebugPage.abortControllerRef := None;
     DebugPage.ticks := O |}.

(** The demo page as it is mounted. *)
Definition demo0 : page :=
  {| userInput := js "What's the weather in San Francisco?";
     responseText := [];
     isStreaming := false;
     events := [];
     abortControllerRef := None;
     ticks := O;
     render_error := false |}.

(** The demo page in the middle of a stream, with [Hi] accumulated. *)
Definition streaming0 : page :=
  {| userInput := js "What's the weather in San Francisco?";
     responseText := js "Hi";
     isStreaming := true;
     events := [ {| type := text; data := JString (js "Hi");
                    timestamp := now0; raw := q "TEXT: `Hi`" |} ];
     abortControllerRef := Some false;
     ticks := 1%nat;
     render_error := false |}.

Definition text_event (d : JsonValue) : CustomStreamEvent :=
  {| type := text; data := d; timestamp := now0; raw := [] |}.

(** The value of [{"toString":1}]: truthy, and without a string
    form. *)
Definition hides_toString : JsonValue :=
  JObject [(js "toString",
            JNumber {| negative := false; mantissa := 1;
                       exponent10 := 0 |})].

(** The generator's chunks, nothing happening in the delays. *)
Definition uninterrupted
  : list (jsstring * list CustomProtocolDemo.happening) :=
  map (fun chunk => (chunk, [])) simulateStream.

(** A response with status 500. *)
Definition server_error : Response := {| status := 500; body := None |}.

(** A response that delivers [unterminated] and closes. *)
Definition unterminated_response : Response :=
  {| status := 200; body := Some (map Value [unterminated]) |}.

End Samples.

(** ** Vocabulary of the further properties *)

(** A byte as a number. *)
Definition code (b : byte) : Z := Z.of_N (Byte.to_N b).

(** The lines, each followed by a line feed, and then the rest. *)
Definition join_nl (lines : list jsstring) (rest : jsstring) : jsstring :=
  flat_map (fun l => l ++ [LF]) lines ++ rest.

(** The number of line feeds of a text, and of 0x0A bytes of a byte
    sequence. *)
Definition LF_count (s : jsstring) : nat :=
  List.length (filter (fun c => c =? LF) s).

Definition LF_bytes (bs : list byte) : nat :=
  List.length (filter (fun b => code b =? LF) bs).

(** The states the UTF-8 decoder can be in between two bytes: idle, or
    inside a sequence whose code point, once complete, cannot be below
    U+0080. *)
Definition pending_ok (d : TextDecoder.utf8) : Prop :=
  TextDecoder.bytes_needed d = 0 \/
  (0 <= TextDecoder.bytes_seen d < TextDecoder.bytes_needed d /\
   TextDecoder.bytes_needed d <= 3 /\
   128 <= TextDecoder.lower_boundary d /\
   TextDecoder.upper_boundary d <= 191 /\
   0 <= TextDecoder.code_point d /\
   128 <= (TextDecoder.code_point d * 64
           + TextDecoder.lower_boundary d - 128)
          * 64 ^ (TextDecoder.bytes_needed d - TextDecoder.bytes_seen d - 1)).

(** What [lead] must satisfy on a byte value: it leaves an admissible
    state, and emits a line feed exactly for the byte 0x0A. *)
Definition lead_ok (z : Z) : bool :=
  let (d, out) := TextDecoder.lead z in
  ((TextDecoder.bytes_needed d =? 0) ||
   ((TextDecoder.bytes_seen d =? 0) &&
    (1 <=? TextDecoder.bytes_needed d) &&
    (TextDecoder.bytes_needed d <=? 3) &&
    (128 <=? TextDecoder.lower_boundary d) &&
    (TextDecoder.upper_boundary d <=? 191) &&
    (0 <=? TextDecoder.code_point d) &&
    (128 <=? (TextDecoder.code_point d * 64
              + TextDecoder.lower_boundary d - 128)
             * 64 ^ (TextDecoder.bytes_needed d - 1)))) &&
  (Nat.eqb (List.length (filter (fun c => c =? LF) out))
           (if z =? LF then 1%nat else 0%nat)).

(** All bytes are below 0x80. *)
Definition ascii_only (bs : list byte) : Prop :=
  Forall (fun b => code b < 128) bs.

(** ** Further sample inputs *)

Module MoreSamples.

(** The bytes of [0:1], a line feed, and [9:], in two chunks. *)
Definition ascii_chunks : list (list byte) :=
  [[x30; x3a; x31; x0a]; [x39; x3a]].

End MoreSamples.

(** The line an event of the debug console was decoded from, put
    together again from its fields. *)
Definition rebuild (e : DebugPage.StreamEvent) : jsstring :=
  match DebugPage.type e with
  | DebugPage.unknown => DebugPage.data e
  | _ => DebugPage.prefix e ++ js ":" ++ DebugPage.data e
  end.

(** The line is not blank: [line.trim()] is truthy. *)
Definition nonblank (line : jsstring) : bool := JsString.truthy (trim line).

(** The event is what the compact decoder makes of the line: when the
    line starts with no table prefix, an event of kind [unknown]
    without a parsed value, labelled [unknown], whose data is the line;
    when the line starts with a table prefix, an event with the label
    and the kind of that prefix, whose data is the line without the
    prefix and whose parsed value is what [JSON.parse] makes of the
    data, or the data itself. *)
Definition entry_of_line (e : DebugPage.StreamEvent) (line : jsstring)
  : Prop :=
  (unmatched compact_table line = true /\
   DebugPage.type e = DebugPage.unknown /\ DebugPage.parsed e = None /\
   DebugPage.prefix e = js "unknown" /\ DebugPage.data e = line)
  \/
  (exists pfx,
     startsWith line pfx = true /\
     In (pfx, (DebugPage.prefix e, DebugPage.type e)) compact_table /\
     DebugPage.data e = slice (List.length pfx) line /\
     DebugPage.parsed e = Some (DebugPage.parse_or_raw (DebugPage.data e))).

(** An entry of the debug log: the decoding of a line that is not
    blank, or the record of a failure, an event of kind [unknown]
    without a parsed value, labelled [error]. *)
Definition log_entry_ok (e : DebugPage.StreamEvent) : Prop :=
  (exists line, nonblank line = true /\ entry_of_line e line)
  \/
  (DebugPage.type e = DebugPage.unknown /\ DebugPage.parsed e = None /\
   DebugPage.prefix e = js "error" /\
   startsWith (DebugPage.data e) (js "Error: ") = true).

Module DebugSamples.

(** The error a read is rejected with after [abort()]. *)
Definition abort_error : JsError :=
  {| instanceof_Error := true;
     name := js "AbortError";
     to_string := js "AbortError: The user aborted a request." |}.

(** A response that delivers [0:1], a line feed and [9:], and whose
    next read is rejected by an abort. *)
Definition aborted_response : Response :=
  {| status := 200;
     body := Some (map Value MoreSamples.ascii_chunks
                   ++ [ReadRejected abort_error]) |}.

(** The debug console with a log left by an earlier session, and
    the same input. *)
Definition debug_used : DebugPage.page :=
  {| DebugPage.events :=
       [DebugPage.parseStreamEvent Samples.now0 (js "e:{}")];
     DebugPage.input := js "What's the weather like in New York?";
     DebugPage.isStreaming := false;
     DebugPage.abortControllerRef := Some true;
     DebugPage.ticks := O |}.

End DebugSamples.

(** The prefixes of the two tables. *)
Definition all_prefixes : list jsstring :=
  map fst compact_table ++ map fst semantic_table.

(** What an event adds to the accumulated text of the demo page. *)
Definition contribution (Number_toString : JsNumber -> jsstring)
  (e : CustomProtocolDemo.CustomStreamEvent) : jsstring :=
  match CustomProtocolDemo.type e with
  | CustomProtocolDemo.text =>
      if Json.truthy (CustomProtocolDemo.data e) then
        match CustomProtocolDemo.ToString Number_toString
                (CustomProtocolDemo.data e) with
        | Some s => s
        | None => []
        end
      else []
  | _ => []
  end.

(** Two pages that the stream loop and the button handlers cannot
    tell apart: they agree on the text, the log, the controller, the
    clock and the streaming flag. *)
Definition same_run (a b : CustomProtocolDemo.page) : Prop :=
  CustomProtocolDemo.responseText a = CustomProtocolDemo.responseText b /\
  CustomProtocolDemo.events a = CustomProtocolDemo.events b /\
  CustomProtocolDemo.abortControllerRef a
    = CustomProtocolDemo.abortControllerRef b /\
  CustomProtocolDemo.ticks a = CustomProtocolDemo.ticks b /\
  CustomProtocolDemo.isStreaming a = CustomProtocolDemo.isStreaming b.

Module DemoSamples.

Import CustomProtocolDemo.

(** The demo page after a session, not streaming. *)
Definition demo_used : page :=
  {| userInput := js "And in Paris?";
     responseText := js "Hi";
     isStreaming := false;
     events := [ Samples.text_event (JString (js "Hi")) ];
     abortControllerRef := Some true;
     ticks := O;
     render_error := false |}.

End DemoSamples.

(** ** [JSON.stringify] of a string, and the chunks of the generator *)

Module JsonStringify.

(** A hexadecimal digit, in lower case. *)
Definition hex_char (d : Z) : codeunit :=
  if d <? 10 then 48 + d else 87 + d.

(** [\uXXXX] *)
Definition UnicodeEscape (c : codeunit) : jsstring :=
  [92; 117; hex_char (c / 4096); hex_char (c / 256 mod 16);
   hex_char (c / 16 mod 16); hex_char (c mod 16)].

Definition is_leading_surrogate (c : codeunit) : bool :=
  (55296 <=? c) && (c <=? 56319).

Definition is_trailing_surrogate (c : codeunit) : bool :=
  (56320 <=? c) && (c <=? 57343).

(** The text for a code unit that is a code point of its own. *)
Definition quote_unit (c : codeunit) : jsstring :=
  if c =? 8 then [92; 98]
  else if c =? 9 then [92; 116]
  else if c =? 10 then [92; 110]
  else if c =? 12 then [92; 102]
  else if c =? 13 then [92; 114]
  else if c =? 34 then [92; 34]
  else if c =? 92 then [92; 92]
  else if (c <? 32) || is_leading_surrogate c || is_trailing_surrogate c
  then UnicodeEscape c
  else [c].

(** The code points in turn: a surrogate pair is copied, every other
    code unit goes through [quote_unit]. *)
Fixpoint quote_chars (s : jsstring) : jsstring :=
  match s with
  | [] => []
  | c :: r =>
      match r with
      | [] => quote_unit c
      | l :: r' =>
          if is_leading_surrogate c && is_trailing_surrogate l
          then c :: l :: quote_chars r'
          else quote_unit c ++ quote_chars r
      end
  end.

(** [JSON.stringify(s)] for a string [s] (QuoteJSONString). *)
Definition QuoteJSONString (s : jsstring) : jsstring :=
  34 :: quote_chars s ++ [34].

End JsonStringify.

Module Generator.

(** The line [`${PROTOCOL.TEXT} ${JSON.stringify(s)}`] and the chunk
    [simulateStream] yields for it, the line and a line feed. *)
Definition text_line (s : jsstring) : jsstring :=
  CustomProtocolDemo.PROTOCOL.TEXT ++ js " " ++ JsonStringify.QuoteJSONString s.

Definition text_chunk (s : jsstring) : jsstring := text_line s ++ [LF].

End Generator.

(** The elements are UTF-16 code units. *)
Definition code_units (s : jsstring) : Prop :=
  Forall (fun c => 0 <= c < 65536) s.

(** The page as [startStream] sets it before the loop. *)
Definition session_start (p : CustomProtocolDemo.page)
  : CustomProtocolDemo.page :=
  CustomProtocolDemo.set_abortControllerRef (Some false)
    (CustomProtocolDemo.setEvents (fun _ => [])
       (CustomProtocolDemo.setResponseText (fun _ => Some [])
          (CustomProtocolDemo.setIsStreaming true p))).

(** Start is not pressed in a delay, and not in any delay of a
    stream. *)
Definition not_start (h : CustomProtocolDemo.happening) : bool :=
  match h with
  | CustomProtocolDemo.PressStart _ => false
  | _ => true
  end.

Definition no_restart
  (stream : list (jsstring * list CustomProtocolDemo.happening)) : bool :=
  forallb (fun cd => forallb not_start (snd cd)) stream.

Module LoopSamples.

Import CustomProtocolDemo.

(** A stream whose second chunk is a function call with the payload
    [null]. *)
Definition null_call : list (jsstring * list happening) :=
  [ (q "TEXT: `Hi`" ++ [LF], []); (js "FUNC: null" ++ [LF], []) ].

(** A stream of two text chunks.  In the delay after the first, Stop
    is pressed and then Start, whose generator yields one text chunk;
    in the delay after the second, the loop that Start began finds its
    generator exhausted. *)
Definition restart_race : list (jsstring * list happening) :=
  [ (q "TEXT: `x`" ++ [LF],
     [PressStop; PressStart (Some (q "TEXT: `new`" ++ [LF]))]);
    (q "TEXT: `old`" ++ [LF], [OtherTurn None]) ].

(** The same stream, cut where Stop is pressed. *)
Definition stopped_after_first : list (jsstring * list happening) :=
  [ (q "TEXT: `x`" ++ [LF], [PressStop]) ].

End LoopSamples.

Module StringSamples.

(** A string with a quote, a line feed, a backslash, a lone surrogate,
    a letter with an accent and a tab. *)
Definition tricky : jsstring := [34; 10; 92; 55296; 233; 9].

End StringSamples.

(** ** How the two pages show an event *)

Module DebugView.

Import DebugPage.

(** [getEventColor(type)] of the debug console *)
Definition getEventColor (t : EventType) : jsstring :=
  match t with
  | content => js "bg-blue-100 text-blue-800"
  | tool_call => js "bg-orange-100 text-orange-800"
  | tool_result => js "bg-green-100 text-green-800"
  | stream_end => js "bg-purple-100 text-purple-800"
  | unknown => js "bg-gray-100 text-gray-800"
  end.

(** [getEventLabel(type)] *)
Definition getEventLabel (t : EventType) : jsstring :=
  match t with
  | content => js "CONTENT"
  | tool_call => js "TOOL CALL"
  | tool_result => js "TOOL RESULT"
  | stream_end => js "STREAM END"
  | unknown => js "UNKNOWN"
  end.

End DebugView.

Module DemoView.

Import CustomProtocolDemo.

(** [getEventColor(type)] of the demo page *)
Definition getEventColor (t : EventType) : jsstring :=
  match t with
  | text => js "bg-blue-100 text-blue-800"
  | function_call => js "bg-orange-100 text-orange-800"
  | function_response => js "bg-green-100 text-green-800"
  | metadata => js "bg-purple-100 text-purple-800"
  | debug => js "bg-gray-100 text-gray-800"
  end.

End DemoView.

(** * Properties *)

(** ** Splitting into lines *)

Section Lines.

Lemma split_nl_not_nil (s : jsstring) : split_nl s <> [].
Proof.
  destruct s as [|c r]; simpl; [discriminate|].
  destruct (c =? LF); [discriminate|].
  destruct (split_nl r); discriminate.
Qed.

Lemma split_nl_no_LF (s : jsstring) : no_LF s -> split_nl s = [s].
Proof.
  induction 1 as [|c r Hc _ IH]; simpl; [reflexivity|].
  apply Z.eqb_neq in Hc. rewrite Hc, IH. reflexivity.
Qed.

Lemma split_nl_line (a t : jsstring) :
  no_LF a -> split_nl (a ++ LF :: t) = a :: split_nl t.
Proof.
  induction 1 as [|c r Hc _ IH]; simpl.
  - reflexivity.
  - apply Z.eqb_neq in Hc. rewrite Hc, IH. reflexivity.
Qed.

Lemma pop_not_nil {A : Type} (l : list A) (d : A) :
  l <> [] -> pop l = (Some (last l d), removelast l).
Proof.
  intros Hl. destruct (exists_last Hl) as [l' [x ->]].
  unfold pop. rewrite rev_app_distr. simpl.
  rewrite rev_involutive, last_last, removelast_last. reflexivity.
Qed.

Lemma or_empty_Some (s : jsstring) : Reassembler.or_empty (Some s) = s.
Proof. destruct s; reflexivity. Qed.

(** [split] followed by [pop] is [scan], given a buffer that holds no
    line feed. *)
Lemma pop_split_scan (s acc : jsstring) :
  no_LF acc ->
  pop (split_nl (acc ++ s)) = (Some (snd (scan acc s)), fst (scan acc s)).
Proof.
  revert acc. induction s as [|c t IH]; intros acc Hacc.
  - rewrite app_nil_r, split_nl_no_LF by assumption. reflexivity.
  - simpl. destruct (c =? LF) eqn:Hc.
    + apply Z.eqb_eq in Hc. subst c.
      rewrite split_nl_line by assumption.
      specialize (IH [] (Forall_nil _)). change ([] ++ t) with t in IH.
      rewrite (pop_not_nil _ ([] : jsstring)) in IH
        by apply split_nl_not_nil.
      rewrite (pop_not_nil _ ([] : jsstring)) by discriminate.
      destruct (scan [] t) as [ls r]. simpl in *.
      injection IH as Hlast Hrem.
      destruct (split_nl t) eqn:Ht; [now apply split_nl_not_nil in Ht|].
      rewrite <- Hlast, <- Hrem. reflexivity.
    + replace (acc ++ c :: t) with ((acc ++ [c]) ++ t)
        by (rewrite <- app_assoc; reflexivity).
      apply IH. apply Forall_app. split; [assumption|].
      constructor; [|constructor]. now apply Z.eqb_neq.
Qed.

Lemma scan_app (a b acc : jsstring) :
  scan acc (a ++ b) =
  let (l1, r1) := scan acc a in
  let (l2, r2) := scan r1 b in (l1 ++ l2, r2).
Proof.
  revert acc. induction a as [|c t IH]; intros acc; simpl.
  - destruct (scan acc b); reflexivity.
  - destruct (c =? LF).
    + rewrite IH. destruct (scan [] t) as [l1 r1].
      destruct (scan r1 b); reflexivity.
    + apply IH.
Qed.

Lemma scan_rest_no_LF (s acc : jsstring) :
  no_LF acc -> no_LF (snd (scan acc s)).
Proof.
  revert acc. induction s as [|c t IH]; intros acc Hacc; simpl.
  - assumption.
  - destruct (c =? LF) eqn:Hc.
    + specialize (IH [] (Forall_nil _)).
      destruct (scan [] t); assumption.
    + apply IH. apply Forall_app. split; [assumption|].
      constructor; [|constructor]. now apply Z.eqb_neq.
Qed.

End Lines.

(** ** The streaming decoder does not see chunk boundaries *)

Section Decoding.

Lemma decode_app (a b : list byte) (d : TextDecoder.t) :
  TextDecoder.decode d (a ++ b) =
  let (d1, o1) := TextDecoder.decode d a in
  let (d2, o2) := TextDecoder.decode d1 b in (d2, o1 ++ o2).
Proof.
  revert d. induction a as [|x r IH]; intros d; simpl.
  - destruct (TextDecoder.decode d b); reflexivity.
  - destruct (TextDecoder.step d x) as [d1 o1]. rewrite IH.
    destruct (TextDecoder.decode d1 r) as [d2 o2].
    destruct (TextDecoder.decode d2 b) as [d3 o3].
    rewrite app_assoc. reflexivity.
Qed.

End Decoding.

(** ** Reassembly *)

Section Reassembly.

Import Reassembler.

(** What [feed] computes, given a buffer without a line feed. *)
Lemma feed_scan (st : state) (value : list byte) :
  no_LF (buffer st) ->
  feed st value =
  let (d, chunk) := TextDecoder.decode (decoder st) value in
  let (ls, r) := scan (buffer st) chunk in
  ({| decoder := d; buffer := r |}, ls).
Proof.
  intros Hb. unfold feed.
  destruct (TextDecoder.decode (decoder st) value) as [d chunk].
  rewrite pop_split_scan by assumption. rewrite or_empty_Some.
  destruct (scan (buffer st) chunk); reflexivity.
Qed.

Lemma feed_buffer_no_LF (st : state) (value : list byte) :
  no_LF (buffer st) -> no_LF (buffer (fst (feed st value))).
Proof.
  intros Hb. rewrite feed_scan by assumption.
  destruct (TextDecoder.decode (decoder st) value) as [d chunk].
  pose proof (scan_rest_no_LF chunk (buffer st) Hb) as H.
  destruct (scan (buffer st) chunk); assumption.
Qed.

(** Feeding [a ++ b] is feeding [a] and then [b]. *)
Lemma feed_app (st : state) (a b : list byte) :
  no_LF (buffer st) ->
  feed st (a ++ b) =
  let (st1, l1) := feed st a in
  let (st2, l2) := feed st1 b in (st2, l1 ++ l2).
Proof.
  intros Hb.
  pose proof (feed_buffer_no_LF st a Hb) as Hb1.
  rewrite (feed_scan st (a ++ b)) by assumption.
  rewrite (feed_scan st a) in * by assumption.
  rewrite decode_app.
  destruct (TextDecoder.decode (decoder st) a) as [d1 o1].
  pose proof (scan_app o1) as Happ.
  destruct (scan (buffer st) o1) as [l1 r1] eqn:E1.
  simpl in Hb1. rewrite feed_scan by assumption. simpl.
  destruct (TextDecoder.decode d1 b) as [d2 o2].
  rewrite Happ, E1.
  destruct (scan r1 o2); reflexivity.
Qed.

Lemma feed_nil (st : state) : no_LF (buffer st) -> feed st [] = (st, []).
Proof.
  intros Hb. rewrite feed_scan by assumption. simpl.
  destruct st; reflexivity.
Qed.

Lemma feed_all_concat (chunks : list (list byte)) (st : state) :
  no_LF (buffer st) ->
  feed_all st chunks = feed st (List.concat chunks).
Proof.
  revert st. induction chunks as [|c cs IH]; intros st Hb; simpl.
  - now rewrite feed_nil.
  - rewrite feed_app by assumption.
    pose proof (feed_buffer_no_LF st c Hb) as Hb1.
    destruct (feed st c) as [st1 l1]. simpl in Hb1.
    rewrite IH by assumption. reflexivity.
Qed.

(** C1: for every byte stream and every way of cutting it into
    chunks, also in the middle of a line or of a multi-byte character,
    feeding the chunks one by one yields the same lines in the same
    order (and leaves the same decoder state and buffer) as feeding the
    whole stream as a single chunk. *)
Theorem feed_all_any_splitting
  (stream : list byte) (chunks : list (list byte)) :
  List.concat chunks = stream ->
  snd (feed_all init chunks) = snd (feed_all init [stream]) /\
  fst (feed_all init chunks) = fst (feed_all init [stream]).
Proof.
  intros <-.
  assert (Hinit : no_LF (buffer init)) by constructor.
  rewrite (feed_all_concat chunks), (feed_all_concat [List.concat chunks])
    by assumption.
  replace (List.concat [List.concat chunks]) with (List.concat chunks)
    by (simpl; now rewrite app_nil_r).
  split; reflexivity.
Qed.

End Reassembly.

(** ** String lemmas *)

Section Strings.

Lemma startsWith_skipn (p line : jsstring) :
  startsWith line p = true -> line = p ++ skipn (List.length p) line.
Proof.
  revert line. induction p as [|x p IH]; intros line H; simpl.
  - reflexivity.
  - destruct line as [|c r]; simpl in H; [discriminate|].
    apply andb_prop in H as [Hc Hr]. apply Z.eqb_eq in Hc. subst c.
    f_equal. now apply IH.
Qed.

Lemma startsWith_other (line p : jsstring) (x y : codeunit) (p' : jsstring) :
  startsWith line (x :: p) = true -> x <> y ->
  startsWith line (y :: p') = false.
Proof.
  destruct line as [|c r]; simpl; [discriminate|].
  intros H Hxy. apply andb_prop in H as [Hc _]. apply Z.eqb_eq in Hc.
  subst c. apply Z.eqb_neq in Hxy. now rewrite Hxy.
Qed.

Lemma trimStart_split (s : jsstring) :
  exists l, s = l ++ trimStart s /\ blank l = true.
Proof.
  induction s as [|c r [l [Hl Hb]]]; simpl.
  - exists []. split; reflexivity.
  - destruct (isWhiteSpace c) eqn:Hc.
    + exists (c :: l). split; [simpl; now f_equal|].
      simpl. now rewrite Hc.
    + exists []. split; reflexivity.
Qed.

Lemma trimStart_head (s : jsstring) :
  trimStart s = [] \/
  exists c r, trimStart s = c :: r /\ isWhiteSpace c = false.
Proof.
  induction s as [|c r IH]; simpl; [now left|].
  destruct (isWhiteSpace c) eqn:Hc; [assumption|].
  right. now exists c, r.
Qed.

Lemma trimStart_idem (s : jsstring) : trimStart (trimStart s) = trimStart s.
Proof.
  destruct (trimStart_head s) as [-> | [c [r [-> Hc]]]]; simpl.
  - reflexivity.
  - now rewrite Hc.
Qed.

Lemma trimStart_snoc (a : jsstring) (c : codeunit) :
  isWhiteSpace c = false -> trimStart (a ++ [c]) = trimStart a ++ [c].
Proof.
  intros Hc. induction a as [|x a IH]; simpl.
  - now rewrite Hc.
  - destruct (isWhiteSpace x); [assumption | reflexivity].
Qed.

Lemma trimEnd_cons (c : codeunit) (x : jsstring) :
  isWhiteSpace c = false -> trimEnd (c :: x) = c :: trimEnd x.
Proof.
  intros Hc. unfold trimEnd. simpl rev at 2.
  rewrite trimStart_snoc by assumption.
  rewrite rev_app_distr. reflexivity.
Qed.

Lemma trimEnd_split (s : jsstring) :
  exists r, s = trimEnd s ++ r /\ blank r = true.
Proof.
  destruct (trimStart_split (rev s)) as [l [Hl Hb]].
  exists (rev l). split.
  - unfold trimEnd. rewrite <- rev_app_distr, <- Hl.
    now rewrite rev_involutive.
  - unfold blank in *. rewrite forallb_forall in *.
    intros x Hx. apply Hb. now apply in_rev.
Qed.

Lemma trimEnd_idem (s : jsstring) : trimEnd (trimEnd s) = trimEnd s.
Proof.
  unfold trimEnd. now rewrite rev_involutive, trimStart_idem.
Qed.

(** [trim] removes a run of white space at either end and nothing
    else. *)
Lemma trim_split (s : jsstring) :
  exists l r, s = l ++ trim s ++ r /\ blank l = true /\ blank r = true.
Proof.
  destruct (trimStart_split s) as [l [Hl Hbl]].
  destruct (trimEnd_split (trimStart s)) as [r [Hr Hbr]].
  exists l, r. unfold trim. rewrite <- Hr. now repeat split.
Qed.

Lemma trimStart_trim (s : jsstring) : trimStart (trim s) = trim s.
Proof.
  unfold trim.
  destruct (trimStart_head s) as [-> | [c [r [-> Hc]]]].
  - reflexivity.
  - rewrite trimEnd_cons by assumption. simpl. now rewrite Hc.
Qed.

Lemma trimEnd_trim (s : jsstring) : trimEnd (trim s) = trim s.
Proof. unfold trim. apply trimEnd_idem. Qed.

(** A line that starts with a prefix whose first character is not
    white space is not blank. *)
Lemma startsWith_truthy_trim (line : jsstring) (x : codeunit) (p : jsstring) :
  startsWith line (x :: p) = true -> isWhiteSpace x = false ->
  JsString.truthy (trim line) = true.
Proof.
  destruct line as [|c r]; simpl; [discriminate|].
  intros H Hx. apply andb_prop in H as [Hc _]. apply Z.eqb_eq in Hc.
  subst c. unfold trim. simpl. rewrite Hx.
  now rewrite trimEnd_cons.
Qed.

End Strings.

(** ** The two decoders *)

Section Decoders.

Import CustomProtocolDemo.

(** Decides the outermost prefix test of the goal from the prefix [H]
    says the line starts with. *)
Ltac settle_prefix H :=
  match goal with
  | |- context [startsWith ?l ?p] =>
      first
        [ replace (startsWith l p) with true by (symmetry; exact H)
        | replace (startsWith l p) with false
            by (symmetry; eapply startsWith_other; [exact H | discriminate]) ];
      cbv iota
  end.

(** Uses up a conjunction of failed prefix tests. *)
Ltac split_tests :=
  repeat match goal with
         | H : _ && _ = true |- _ => apply andb_prop in H as [? ?]
         | H : negb _ = true |- _ =>
             apply negb_true_iff in H; rewrite H; clear H
         end.

(** The compact decoder takes the branch of the prefix that matches. *)
Lemma parseStreamEvent_matched
  (now line pfx label : jsstring) (ty : DebugPage.EventType) :
  In (pfx, (label, ty)) compact_table ->
  startsWith line pfx = true ->
  DebugPage.parseStreamEvent now line =
  {| DebugPage.timestamp := now;
     DebugPage.prefix := label;
     DebugPage.data := slice (List.length pfx) line;
     DebugPage.parsed :=
       Some (DebugPage.parse_or_raw (slice (List.length pfx) line));
     DebugPage.type := ty |}.
Proof.
  intros Hin Hs. unfold DebugPage.parseStreamEvent.
  unfold compact_table in Hin. cbn [In] in Hin.
  destruct Hin as [E | [E | [E | [E | []]]]];
    injection E as <- <- <-;
    repeat settle_prefix Hs; reflexivity.
Qed.

(** The semantic decoder takes the branch of the prefix that matches. *)
Lemma parseStreamLine_matched
  (now line pfx : jsstring) (ty : EventType) :
  In (pfx, ty) semantic_table ->
  startsWith line pfx = true ->
  parseStreamLine now line = branch ty pfx now line.
Proof.
  intros Hin Hs. unfold parseStreamLine.
  unfold semantic_table in Hin. cbn [In] in Hin.
  destruct Hin as [E | [E | [E | [E | [E | []]]]]];
    injection E as <- <-;
    (rewrite (startsWith_truthy_trim line _ _ Hs) by reflexivity);
    simpl negb; cbv iota;
    repeat settle_prefix Hs; reflexivity.
Qed.

(** C2, as the code has it: a line that starts with no prefix of the
    compact table is decoded, without an error, to an event of kind
    [unknown] whose data is the line itself; a line that starts with no
    prefix of the semantic table yields no event, the decoder returns
    null. *)
Theorem unmatched_line_decoding (now line1 line2 : jsstring) :
  unmatched compact_table line1 = true ->
  unmatched semantic_table line2 = true ->
  DebugPage.parseStreamEvent now line1 =
    {| DebugPage.timestamp := now;
       DebugPage.prefix := js "unknown";
       DebugPage.data := line1;
       DebugPage.parsed := None;
       DebugPage.type := DebugPage.unknown |} /\
  parseStreamLine now line2 = None.
Proof.
  unfold unmatched, compact_table, semantic_table. cbn [forallb fst].
  intros H1 H2. split.
  - unfold DebugPage.parseStreamEvent.
    clear H2. split_tests. reflexivity.
  - unfold parseStreamLine.
    clear H1. split_tests. destruct (negb _); reflexivity.
Qed.

(** C3, as the code has it: when the payload after a matched prefix
    is not valid JSON, the compact decoder yields the event of the kind
    the table gives, with the raw payload string as its data and as its
    parsed value; the semantic decoder catches the error and returns
    null, so the line yields no event. *)
Theorem malformed_payload_decoding
  (now line1 pfx1 label : jsstring) (ty1 : DebugPage.EventType)
  (line2 pfx2 : jsstring) (ty2 : EventType) :
  In (pfx1, (label, ty1)) compact_table ->
  startsWith line1 pfx1 = true ->
  Json.parse (slice (List.length pfx1) line1) = None ->
  In (pfx2, ty2) semantic_table ->
  startsWith line2 pfx2 = true ->
  Json.parse (trim (slice (List.length pfx2) line2)) = None ->
  DebugPage.parseStreamEvent now line1 =
    {| DebugPage.timestamp := now;
       DebugPage.prefix := label;
       DebugPage.data := slice (List.length pfx1) line1;
       DebugPage.parsed := Some (JString (slice (List.length pfx1) line1));
       DebugPage.type := ty1 |} /\
  parseStreamLine now line2 = None.
Proof.
  intros Hin1 Hs1 Hp1 Hin2 Hs2 Hp2. split.
  - rewrite (parseStreamEvent_matched now line1 pfx1 label ty1) by assumption.
    unfold DebugPage.parse_or_raw. now rewrite Hp1.
  - rewrite (parseStreamLine_matched now line2 pfx2 ty2) by assumption.
    unfold branch. now rewrite Hp2.
Qed.

(** C7, as the code has it: the compact decoder hands the parser the
    line without its prefix and strips nothing else; the semantic
    decoder hands it the line without its prefix and without the white
    space at both ends of what remains. *)
Theorem payload_substring
  (now line1 pfx1 label : jsstring) (ty1 : DebugPage.EventType)
  (line2 pfx2 : jsstring) (ty2 : EventType) :
  In (pfx1, (label, ty1)) compact_table ->
  startsWith line1 pfx1 = true ->
  In (pfx2, ty2) semantic_table ->
  startsWith line2 pfx2 = true ->
  (let e := DebugPage.parseStreamEvent now line1 in
   line1 = pfx1 ++ DebugPage.data e /\
   DebugPage.parsed e = Some (DebugPage.parse_or_raw (DebugPage.data e))) /\
  (exists l payload r,
     line2 = pfx2 ++ l ++ payload ++ r /\
     blank l = true /\ blank r = true /\
     trimStart payload = payload /\ trimEnd payload = payload /\
     parseStreamLine now line2 =
       match Json.parse payload with
       | Some parsed =>
           Some {| type := ty2; data := parsed;
                   timestamp := now; raw := line2 |}
       | None => None
       end).
Proof.
  intros Hin1 Hs1 Hin2 Hs2. split.
  - rewrite (parseStreamEvent_matched now line1 pfx1 label ty1) by assumption.
    simpl. split; [|reflexivity].
    now apply startsWith_skipn.
  - destruct (trim_split (slice (List.length pfx2) line2))
      as [l [r [Hsplit [Hl Hr]]]].
    exists l, (trim (slice (List.length pfx2) line2)), r.
    repeat split.
    + rewrite <- Hsplit. now apply startsWith_skipn.
    + assumption.
    + assumption.
    + apply trimStart_trim.
    + apply trimEnd_trim.
    + now rewrite (parseStreamLine_matched now line2 pfx2 ty2).
Qed.

End Decoders.

(** ** The dispatcher of the demo page *)

Section Dispatcher.

Import CustomProtocolDemo.

Variable Number_toString : JsNumber -> jsstring.
Variable clock : nat -> jsstring.

Lemma events_setResponseText f (p : page) :
  events (setResponseText f p) = events p.
Proof. unfold setResponseText. destruct (f _); reflexivity. Qed.

Lemma ticks_setResponseText f (p : page) :
  ticks (setResponseText f p) = ticks p.
Proof. unfold setResponseText. destruct (f _); reflexivity. Qed.

Lemma abort_setResponseText f (p : page) :
  abortControllerRef (setResponseText f p) = abortControllerRef p.
Proof. unfold setResponseText. destruct (f _); reflexivity. Qed.

Lemma processEvent_events (p : page) (e : CustomStreamEvent) :
  events (fst (processEvent Number_toString p e)) = events p ++ [e].
Proof.
  unfold processEvent. destruct (type e); simpl; try reflexivity.
  now rewrite events_setResponseText.
Qed.

Lemma processEvent_ticks (p : page) (e : CustomStreamEvent) :
  ticks (fst (processEvent Number_toString p e)) = ticks p.
Proof.
  unfold processEvent. destruct (type e); simpl; try reflexivity.
  now rewrite ticks_setResponseText.
Qed.

Lemma processEvent_outcome (p : page) (e : CustomStreamEvent) :
  snd (processEvent Number_toString p e) = dispatch_outcome Number_toString e.
Proof.
  unfold processEvent, dispatch_outcome. destruct (type e); reflexivity.
Qed.

Lemma process_lines_events (lines : list jsstring) (p : page) :
  events (fst (process_lines Number_toString clock p lines)) =
  events p ++ decoded_demo Number_toString clock (ticks p) lines.
Proof.
  revert p. induction lines as [|line r IH]; intros p; simpl.
  - now rewrite app_nil_r.
  - destruct (JsString.truthy (trim line)); [|apply IH].
    destruct (parseStreamLine (clock (ticks p)) line) as [e|].
    + pose proof (processEvent_events (tick p) e) as He.
      pose proof (processEvent_ticks (tick p) e) as Ht.
      pose proof (processEvent_outcome (tick p) e) as Ho.
      destruct (processEvent Number_toString (tick p) e) as [p1 o].
      simpl in He, Ht, Ho. rewrite <- Ho.
      destruct o; simpl.
      * rewrite IH, He, Ht, <- app_assoc. reflexivity.
      * now rewrite He.
    + now rewrite IH.
Qed.

Lemma debug_process_lines_events
  (lines : list jsstring) (p : DebugPage.page) :
  DebugPage.events (DebugPage.process_lines clock p lines) =
  DebugPage.events p ++ decoded_debug clock (DebugPage.ticks p) lines /\
  DebugPage.isStreaming (DebugPage.process_lines clock p lines) =
  DebugPage.isStreaming p.
Proof.
  revert p. induction lines as [|line r IH]; intros p; simpl.
  - now rewrite app_nil_r.
  - destruct (JsString.truthy (trim line)); [|apply IH].
    destruct (IH (DebugPage.setEvents
                    (fun prev => prev ++
                       [DebugPage.parseStreamEvent
                          (clock (DebugPage.ticks p)) line])
                    (DebugPage.tick p))) as [-> ->].
    simpl. now rewrite <- app_assoc.
Qed.

(** C5: [processEvent] appends the event to the log first, whatever
    its kind and whether or not its handling throws; hence after the
    lines of a chunk have been processed the log holds, after what it
    held before, exactly the events decoded, in the order they were
    decoded.  The read loop of the debug console likewise appends every
    event it decodes. *)
Theorem event_log_complete
  (p : page) (e : CustomStreamEvent) (lines : list jsstring)
  (dp : DebugPage.page) :
  events (fst (processEvent Number_toString p e)) = events p ++ [e] /\
  events (fst (process_lines Number_toString clock p lines)) =
    events p ++ decoded_demo Number_toString clock (ticks p) lines /\
  DebugPage.events (DebugPage.process_lines clock dp lines) =
    DebugPage.events dp ++ decoded_debug clock (DebugPage.ticks dp) lines.
Proof.
  split; [apply processEvent_events|].
  split; [apply process_lines_events|].
  apply debug_process_lines_events.
Qed.

(** C6, as the code has it: a text event appends its payload to the
    accumulated text when the payload is truthy and has a string form,
    a string as it is and any other value in its string form.  A truthy
    payload without a string form (an object whose own [toString]
    member hides the inherited method) appends nothing: the updater
    throws while React applies it and the page is torn down.  A falsy
    payload (the empty string, [false], [0], [null]) leaves the text as
    it was. *)
Theorem text_event_appends (p : page) (e : CustomStreamEvent) :
  type e = text ->
  let p' := fst (processEvent Number_toString p e) in
  (forall s, data e = JString s -> responseText p' = responseText p ++ s) /\
  (forall s, Json.truthy (data e) = true ->
             ToString Number_toString (data e) = Some s ->
             responseText p' = responseText p ++ s /\
             render_error p' = render_error p) /\
  (Json.truthy (data e) = true ->
   ToString Number_toString (data e) = None ->
   responseText p' = responseText p /\ render_error p' = true) /\
  (Json.truthy (data e) = false ->
   responseText p' = responseText p /\ render_error p' = render_error p).
Proof.
  intros Hty. unfold processEvent. rewrite Hty. simpl.
  unfold setResponseText, append_data. simpl.
  split; [|split; [|split]].
  - intros s ->. simpl. destruct s; simpl; [now rewrite app_nil_r|reflexivity].
  - intros s -> ->. simpl. now split.
  - intros -> ->. simpl. now split.
  - intros ->. simpl. rewrite app_nil_r. now split.
Qed.

Lemma for_await_aborted (p : page) (stream : list (jsstring * list happening)) :
  aborted p = true ->
  for_await Number_toString clock p stream = (p, Returned).
Proof.
  intros H. destruct stream as [|[chunk stop] r]; simpl; [reflexivity|].
  now rewrite H.
Qed.

(** When the loop takes its next turn on the page as [stopStream]
    left it, with nothing else having happened since, it applies
    nothing more, however many chunks and lines remain: the page stays
    as [stopStream] left it, with the accumulated text and the log of
    [p], the abort signal set and the streaming flag cleared. *)
Lemma cancel_stops_dispatch (p : page) (rest : list (jsstring * list happening)) :
  abortControllerRef p <> None ->
  let p' := stopStream p in
  for_await Number_toString clock p' rest = (p', Returned) /\
  responseText p' = responseText p /\
  events p' = events p /\
  aborted p' = true /\
  isStreaming (setIsStreaming false p') = false /\
  isStreaming p' = false.
Proof.
  intros Hc. unfold stopStream.
  destruct (abortControllerRef p) as [a|] eqn:Ha; [|contradiction].
  simpl. split; [|now repeat split].
  now apply for_await_aborted.
Qed.

(** C10: [startStream] does nothing while a stream is active: the
    page, with its text, log, flag and abort controller, is
    unchanged. *)
Theorem startStream_while_streaming
  (p : page) (stream : list (jsstring * list happening)) :
  isStreaming p = true ->
  startStream Number_toString clock p stream = p.
Proof. intros H. unfold startStream. now rewrite H. Qed.

End Dispatcher.

(** ** A whole session of the demo page *)

Section Session.

Import CustomProtocolDemo.

Variable Number_toString : JsNumber -> jsstring.
Variable clock : nat -> jsstring.

Lemma processEvent_controller (p : page) (e : CustomStreamEvent) :
  abortControllerRef (fst (processEvent Number_toString p e)) =
  abortControllerRef p.
Proof.
  unfold processEvent. destruct (type e); simpl; try reflexivity.
  now rewrite abort_setResponseText.
Qed.

Lemma process_lines_controller (lines : list jsstring) (p : page) :
  abortControllerRef (fst (process_lines Number_toString clock p lines)) =
  abortControllerRef p.
Proof.
  revert p. induction lines as [|line r IH]; intros p; simpl.
  - reflexivity.
  - destruct (JsString.truthy (trim line)); [|apply IH].
    destruct (parseStreamLine (clock (ticks p)) line) as [e|].
    + pose proof (processEvent_controller (tick p) e) as He.
      destruct (processEvent Number_toString (tick p) e) as [p1 o].
      destruct o; simpl in *; [now rewrite IH | assumption].
    + now rewrite IH.
Qed.

Lemma stopStream_aborted (p : page) :
  abortControllerRef p <> None -> aborted (stopStream p) = true.
Proof.
  unfold stopStream. destruct (abortControllerRef p) eqn:E; [|contradiction].
  reflexivity.
Qed.

Lemma stopStream_controller (p : page) :
  abortControllerRef p <> None -> abortControllerRef (stopStream p) <> None.
Proof.
  unfold stopStream. destruct (abortControllerRef p) eqn:E; [|contradiction].
  discriminate.
Qed.

(** The loop over [a ++ b] is the loop over [a] and then, unless it
    threw, the loop over [b]. *)
Lemma for_await_app (a b : list (jsstring * list happening)) (p : page) :
  for_await Number_toString clock p (a ++ b) =
  match for_await Number_toString clock p a with
  | (p1, Returned) => for_await Number_toString clock p1 b
  | (p1, Threw) => (p1, Threw)
  end.
Proof.
  revert p. induction a as [|[chunk delay] r IH]; intros p; simpl.
  - reflexivity.
  - destruct (aborted p) eqn:Ha.
    + now rewrite for_await_aborted.
    + destruct (process_lines Number_toString clock p (split_nl chunk))
        as [p1 o].
      destruct o; [apply IH | reflexivity].
Qed.

Lemma loop_turn_controller (p : page) (next : option jsstring) :
  abortControllerRef (loop_turn Number_toString clock p next)
    = abortControllerRef p.
Proof.
  unfold loop_turn. destruct next as [chunk|]; [|reflexivity].
  destruct (aborted p); [reflexivity|].
  pose proof (process_lines_controller (split_nl chunk) p) as H.
  destruct (process_lines Number_toString clock p (split_nl chunk))
    as [p1 o].
  destruct o; exact H.
Qed.

(** Nothing that happens in a delay empties the ref. *)
Lemma happens_controller (p : page) (h : happening) :
  abortControllerRef p <> None ->
  abortControllerRef (happens Number_toString clock p h) <> None.
Proof.
  intros H. destruct h as [| first | next]; simpl.
  - now apply stopStream_controller.
  - destruct (isStreaming p); [assumption|].
    rewrite loop_turn_controller. discriminate.
  - now rewrite loop_turn_controller.
Qed.

Lemma delay_controller (delay : list happening) (p : page) :
  abortControllerRef p <> None ->
  abortControllerRef (fold_left (happens Number_toString clock) delay p)
    <> None.
Proof.
  revert p. induction delay as [|h r IH]; intros p H; simpl.
  - assumption.
  - apply IH. now apply happens_controller.
Qed.

(** With a controller in place, a loop that has run through a chunk
    in whose delay Stop was the last thing to happen ends with the
    signal set. *)
Lemma for_await_stopped (pre : list (jsstring * list happening))
  (chunk : jsstring) (delay : list happening) (p p1 : page) :
  abortControllerRef p <> None ->
  for_await Number_toString clock p (pre ++ [(chunk, delay ++ [PressStop])])
    = (p1, Returned) ->
  aborted p1 = true.
Proof.
  revert p. induction pre as [|[c d] r IH]; intros p Hc; simpl.
  - destruct (aborted p) eqn:Ha.
    + now intros [= <-].
    + pose proof (process_lines_controller (split_nl chunk) p) as Hk.
      destruct (process_lines Number_toString clock p (split_nl chunk))
        as [p2 o].
      destruct o; [|discriminate]. intros [= <-].
      rewrite fold_left_app. simpl. apply stopStream_aborted.
      apply delay_controller. simpl in Hk. now rewrite Hk.
  - destruct (aborted p) eqn:Ha.
    + now intros [= <-].
    + pose proof (process_lines_controller (split_nl c) p) as Hk.
      destruct (process_lines Number_toString clock p (split_nl c))
        as [p2 o].
      destruct o; [|discriminate]. simpl in Hk.
      apply IH. apply delay_controller. now rewrite Hk.
Qed.

(** X18: when Stop is the last thing that happens in the delay after
    a chunk (in particular, Start is not pressed after it in that
    delay), the session ends as if the stream had ended with that
    chunk: what the generator would still have yielded has no
    effect. *)
Lemma startStream_ignores_after_stop
  (pre post : list (jsstring * list happening)) (chunk : jsstring)
  (delay : list happening) (p : page) :
  startStream Number_toString clock p
    (pre ++ (chunk, delay ++ [PressStop]) :: post) =
  startStream Number_toString clock p
    (pre ++ [(chunk, delay ++ [PressStop])]).
Proof.
  unfold startStream. destruct (isStreaming p); [reflexivity|].
  replace (pre ++ (chunk, delay ++ [PressStop]) :: post)
    with ((pre ++ [(chunk, delay ++ [PressStop])]) ++ post)
    by (rewrite <- app_assoc; reflexivity).
  rewrite for_await_app.
  destruct (for_await Number_toString clock (begin_session p)
              (pre ++ [(chunk, delay ++ [PressStop])]))
    as [p2 o] eqn:E.
  destruct o; [|reflexivity].
  rewrite for_await_aborted; [reflexivity|].
  apply (for_await_stopped pre chunk delay (begin_session p));
    [discriminate | exact E].
Qed.

End Session.

(** ** The debug console against its transport *)

Section DebugSession.

Import DebugPage.

Variable clock : nat -> jsstring.

Lemma process_lines_app (l1 l2 : list jsstring) (p : page) :
  process_lines clock p (l1 ++ l2) =
  process_lines clock (process_lines clock p l1) l2.
Proof.
  revert p. induction l1 as [|line r IH]; intros p; simpl.
  - reflexivity.
  - destruct (JsString.truthy (trim line)); apply IH.
Qed.

(** Reads that all deliver a chunk: the loop processes the lines of
    [feed_all] and ends without an error. *)
Lemma read_loop_values (chunks : list (list byte))
  (st : Reassembler.state) (p : page) :
  read_loop clock st p (map Value chunks) =
  (process_lines clock p (snd (Reassembler.feed_all st chunks)), None).
Proof.
  revert st p. induction chunks as [|c cs IH]; intros st p; simpl.
  - reflexivity.
  - destruct (Reassembler.feed st c) as [st1 l1]. rewrite IH.
    destruct (Reassembler.feed_all st1 cs) as [st2 l2]. simpl.
    now rewrite process_lines_app.
Qed.

(** Reads that deliver chunks and then fail: the lines of the chunks
    are processed and the error is thrown. *)
Lemma read_loop_rejected (chunks : list (list byte)) (e : JsError)
  (rest : list read_result) (st : Reassembler.state) (p : page) :
  read_loop clock st p (map Value chunks ++ ReadRejected e :: rest) =
  (process_lines clock p (snd (Reassembler.feed_all st chunks)), Some e).
Proof.
  revert st p. induction chunks as [|c cs IH]; intros st p; simpl.
  - reflexivity.
  - destruct (Reassembler.feed st c) as [st1 l1]. rewrite IH.
    destruct (Reassembler.feed_all st1 cs) as [st2 l2]. simpl.
    now rewrite process_lines_app.
Qed.

(** The lines and the buffer after all the chunks, in terms of the
    decoded text. *)
Lemma feed_all_text (chunks : list (list byte)) :
  let text := snd (TextDecoder.decode TextDecoder.new (List.concat chunks)) in
  snd (Reassembler.feed_all Reassembler.init chunks)
    = removelast (split_nl text) /\
  Reassembler.buffer (fst (Reassembler.feed_all Reassembler.init chunks))
    = last (split_nl text) [].
Proof.
  cbv zeta. rewrite feed_all_concat by constructor.
  unfold Reassembler.feed, Reassembler.init.
  cbn [Reassembler.decoder Reassembler.buffer app].
  destruct (TextDecoder.decode TextDecoder.new (List.concat chunks))
    as [d text].
  rewrite (pop_not_nil _ ([] : jsstring)) by apply split_nl_not_nil.
  cbn [fst snd Reassembler.buffer]. now rewrite or_empty_Some.
Qed.

(** C4, as the code has it: when the reader reports the end of the
    stream the loop ends and decodes nothing more.  The log of a
    session that was delivered [chunks] holds the events of the
    segments of the decoded text that a line feed ends; the last
    segment, which is what the buffer holds at the close, yields no
    event, empty or not. *)
Theorem close_discards_residual
  (p : page) (r : Response) (chunks : list (list byte)) :
  ok r = true ->
  body r = Some (map Value chunks) ->
  let text := snd (TextDecoder.decode TextDecoder.new (List.concat chunks)) in
  Reassembler.buffer (fst (Reassembler.feed_all Reassembler.init chunks))
    = last (split_nl text) [] /\
  events (startStreaming clock p (FetchResolved r))
    = decoded_debug clock (ticks p) (removelast (split_nl text)).
Proof.
  intros Hok Hbody. destruct (feed_all_text chunks) as [Hl Hb].
  split; [exact Hb|].
  unfold startStreaming, try_body. rewrite Hok, Hbody. simpl negb. cbv iota.
  rewrite read_loop_values. simpl.
  rewrite (proj1 (debug_process_lines_events clock _ _)).
  simpl. now rewrite Hl.
Qed.

Lemma startStreaming_delivered (chunks : list (list byte)) (p : page) :
  startStreaming clock p (delivered chunks) =
  setIsStreaming false
    (process_lines clock
       (set_abortControllerRef (Some false)
          (setIsStreaming true (setEvents (fun _ => []) p)))
       (snd (Reassembler.feed_all Reassembler.init chunks))).
Proof.
  unfold delivered, startStreaming, try_body. cbn [ok status body].
  simpl negb. cbv iota. now rewrite read_loop_values.
Qed.

(** C9: when the transport fails (the request is rejected, the
    response is not a 2xx one, or a read is rejected) with an error
    that is not an abort, the session ends with the streaming flag
    cleared, and its log is the log of the chunks delivered before the
    failure followed by one synthetic event that records the error. *)
Theorem transport_failure_recorded
  (p : page) (f : fetch_result) (chunks : list (list byte)) (e : JsError) :
  transport_failure f chunks e ->
  is_AbortError e = false ->
  let before := startStreaming clock p (delivered chunks) in
  let p' := startStreaming clock p f in
  isStreaming p' = false /\
  events p' = events before ++ [error_event (clock (ticks before)) e].
Proof.
  intros Hf Ha. cbv zeta. split.
  { unfold startStreaming. destruct (try_body clock _ f). reflexivity. }
  unfold is_AbortError in Ha.
  destruct Hf as [e | r Hok | r chunks e rest Hok Hbody];
    rewrite startStreaming_delivered;
    unfold startStreaming, try_body.
  - unfold catch. rewrite Ha. reflexivity.
  - rewrite Hok. reflexivity.
  - rewrite Hok, Hbody. simpl negb. cbv iota.
    rewrite read_loop_rejected. unfold catch. rewrite Ha.
    reflexivity.
Qed.

End DebugSession.

(** ** [JSON.parse] is not cut short by its fuel *)

Section JsonFuel.

Import Json.

Local Open Scope nat_scope.

Lemma skip_ws_length (s : jsstring) : List.length (skip_ws s) <= List.length s.
Proof.
  induction s as [|c r IH]; simpl; [lia|].
  destruct (is_ws c); simpl; lia.
Qed.

Lemma skip_ws_cons (s r : jsstring) (c : codeunit) :
  skip_ws s = c :: r -> List.length r < List.length s.
Proof.
  intros H. pose proof (skip_ws_length s) as L. rewrite H in L.
  simpl in L. lia.
Qed.

Lemma cons_char_Some c o x rest :
  cons_char c o = Some (x, rest) -> exists y, o = Some (y, rest).
Proof.
  destruct o as [[y r]|]; simpl; [|discriminate].
  intros [= _ <-]. now exists y.
Qed.

Lemma string_chars_length (n : nat) :
  forall s x rest, List.length s <= n ->
  string_chars s = Some (x, rest) -> List.length rest < List.length s.
Proof.
  induction n as [|n IH]; intros s x rest Hn H.
  - destruct s; [discriminate | simpl in Hn; lia].
  - destruct s as [|c r]; [discriminate|]. simpl in Hn, H.
    destruct (Z.eqb c 34).
    { injection H as _ <-. simpl. lia. }
    destruct (Z.eqb c 92).
    + destruct r as [|e r1]; [discriminate|].
      destruct (Z.eqb e 117).
      * destruct r1 as [|h1 [|h2 [|h3 [|h4 r2]]]]; try discriminate.
        destruct (hex4 h1 h2 h3 h4); [|discriminate].
        apply cons_char_Some in H as [y H].
        apply IH in H; simpl in *; lia.
      * destruct (escape e); [|discriminate].
        apply cons_char_Some in H as [y H].
        apply IH in H; simpl in *; lia.
    + destruct (Z.ltb c 32); [discriminate|].
      apply cons_char_Some in H as [y H].
      apply IH in H; simpl in *; lia.
Qed.

Lemma digits_length (s : jsstring) :
  forall acc len v l rest,
  digits s acc len = (v, l, rest) -> List.length rest <= List.length s.
Proof.
  induction s as [|c r IH]; intros acc len v l rest H; simpl in H.
  - injection H as _ _ <-. simpl. lia.
  - destruct (is_digit c).
    + apply IH in H. simpl. lia.
    + injection H as _ _ <-. lia.
Qed.

Lemma int_part_length s v rest :
  int_part s = Some (v, rest) -> List.length rest < List.length s.
Proof.
  destruct s as [|c r]; simpl; [discriminate|].
  destruct (Z.eqb c 48).
  - intros [= _ <-]. lia.
  - destruct (is_digit c) eqn:Hd; [|discriminate].
    destruct (digits r _ _) as [[v' l] rest'] eqn:E.
    intros [= _ <-]. apply digits_length in E. lia.
Qed.

Lemma frac_part_length m s v l rest :
  frac_part m s = Some (v, l, rest) -> List.length rest <= List.length s.
Proof.
  destruct s as [|c r]; simpl.
  - intros [= _ _ <-]. simpl. lia.
  - destruct (Z.eqb c 46).
    + destruct (digits r m 0) as [[v' l'] rest'] eqn:E.
      destruct (Z.eqb l' 0); [discriminate|].
      intros [= _ _ <-]. apply digits_length in E. lia.
    + intros [= _ _ <-]. simpl. lia.
Qed.

Lemma exp_digits_length neg s v rest :
  exp_digits neg s = Some (v, rest) -> List.length rest <= List.length s.
Proof.
  unfold exp_digits. destruct (digits s 0 0) as [[v' l'] rest'] eqn:E.
  destruct (Z.eqb l' 0); [discriminate|].
  intros [= _ <-]. now apply digits_length in E.
Qed.

Lemma exp_part_length s v rest :
  exp_part s = Some (v, rest) -> List.length rest <= List.length s.
Proof.
  destruct s as [|c r]; simpl.
  - intros [= _ <-]. simpl. lia.
  - destruct (_ || _).
    + destruct r as [|sg r1]; [discriminate|].
      destruct (Z.eqb sg 43); [|destruct (Z.eqb sg 45)];
        intros H; apply exp_digits_length in H; simpl in *; lia.
    + intros [= _ <-]. simpl. lia.
Qed.

Lemma unsigned_number_cases neg s :
  unsigned_number neg s = SyntaxError \/
  exists n rest, unsigned_number neg s = Ok n rest /\
                 List.length rest < List.length s.
Proof.
  unfold unsigned_number.
  destruct (int_part s) as [[i r1]|] eqn:E1; [|now left].
  destruct (frac_part i r1) as [[[m fl] r2]|] eqn:E2; [|now left].
  destruct (exp_part r2) as [[e r3]|] eqn:E3; [|now left].
  right. eexists _, _. split; [reflexivity|].
  apply int_part_length in E1. apply frac_part_length in E2.
  apply exp_part_length in E3. lia.
Qed.

Lemma number_cases s :
  number s = SyntaxError \/
  exists n rest, number s = Ok n rest /\ List.length rest < List.length s.
Proof.
  destruct s as [|c r]; simpl; [now left|].
  destruct (Z.eqb c 45).
  - destruct (unsigned_number_cases true r) as [H | [n [rest [H L]]]];
      [now left|].
    right. exists n, rest. split; [assumption | simpl; lia].
  - apply unsigned_number_cases.
Qed.

Lemma keyword_cases w v s :
  w <> [] ->
  keyword w v s = SyntaxError \/
  exists rest, keyword w v s = Ok v rest /\ List.length rest < List.length s.
Proof.
  intros Hw. unfold keyword. destruct (startsWith s w) eqn:E; [|now left].
  right. eexists. split; [reflexivity|].
  apply startsWith_skipn in E. rewrite E at 2. rewrite length_app.
  destruct w; [contradiction | simpl; lia].
Qed.

Lemma value_settles (f : nat) :
  (forall s, 2 * List.length s < f -> settles (value f s) s) /\
  (forall s acc, 2 * List.length s + 2 <= f ->
                 settles (elements f s acc) s) /\
  (forall s acc, 2 * List.length s + 2 <= f ->
                 settles (members f s acc) s).
Proof.
  induction f as [|f [IHv [IHe IHm]]].
  - repeat split; intros; lia.
  - split; [|split].
    + intros s Hf. cbn [value elements members].
      destruct (skip_ws s) as [|c r] eqn:Es; [now left|].
      pose proof (skip_ws_cons _ _ _ Es) as Lr.
      destruct (Z.eqb c 123).
      { destruct (skip_ws r) as [|c1 r1] eqn:Er; [now left|].
        pose proof (skip_ws_cons _ _ _ Er) as L1.
        destruct (Z.eqb c1 125).
        - right. eexists _, _. split; [reflexivity | lia].
        - pose proof (skip_ws_length r) as L2. rewrite Er in L2.
          destruct (IHm (c1 :: r1) [] ltac:(lia))
            as [-> | [v [rest [-> L]]]]; [now left|].
          right. eexists _, _. split; [reflexivity | lia]. }
      destruct (Z.eqb c 91).
      { destruct (skip_ws r) as [|c1 r1] eqn:Er; [now left|].
        pose proof (skip_ws_cons _ _ _ Er) as L1.
        destruct (Z.eqb c1 93).
        - right. eexists _, _. split; [reflexivity | lia].
        - pose proof (skip_ws_length r) as L2. rewrite Er in L2.
          destruct (IHe (c1 :: r1) [] ltac:(lia))
            as [-> | [v [rest [-> L]]]]; [now left|].
          right. eexists _, _. split; [reflexivity | lia]. }
      destruct (Z.eqb c 34).
      { destruct (string_chars r) as [[str rest]|] eqn:E; [|now left].
        apply (string_chars_length _ _ _ _ (le_n _)) in E.
        right. eexists _, _. split; [reflexivity | lia]. }
      pose proof (skip_ws_length s) as Ls. rewrite Es in Ls.
      repeat match goal with
             | |- settles (if ?b then _ else _) _ => destruct b
             end;
        try match goal with
            | |- settles (keyword ?w ?v ?x) _ =>
                destruct (keyword_cases w v x)
                  as [-> | [rest [-> L]]]; [discriminate | now left |];
                right; eexists _, _; split; [reflexivity | lia]
            end.
      match goal with
      | |- context [number ?x] =>
          destruct (number_cases x) as [-> | [n [rest [-> L]]]]
      end; [now left|].
      right. eexists _, _. split; [reflexivity | lia].
    + intros s acc Hf. cbn [value elements members].
      destruct (IHv s ltac:(lia)) as [-> | [v [rest [-> L]]]]; [now left|].
      destruct (skip_ws rest) as [|c r] eqn:Er; [now left|].
      pose proof (skip_ws_cons _ _ _ Er) as L1.
      destruct (Z.eqb c 44).
      * destruct (IHe r (v :: acc) ltac:(lia))
          as [-> | [v' [rest' [-> L']]]]; [now left|].
        right. eexists _, _. split; [reflexivity | lia].
      * destruct (Z.eqb c 93); [|now left].
        right. eexists _, _. split; [reflexivity | lia].
    + intros s acc Hf. cbn [value elements members].
      destruct (skip_ws s) as [|q0 r0] eqn:Es; [now left|].
      pose proof (skip_ws_cons _ _ _ Es) as L0.
      destruct (Z.eqb q0 34); [|now left].
      destruct (string_chars r0) as [[k r1]|] eqn:Ek; [|now left].
      apply (string_chars_length _ _ _ _ (le_n _)) in Ek.
      destruct (skip_ws r1) as [|col r2] eqn:E1; [now left|].
      pose proof (skip_ws_cons _ _ _ E1) as L2.
      destruct (Z.eqb col 58); [|now left].
      destruct (IHv r2 ltac:(lia)) as [-> | [v [rest [-> L]]]]; [now left|].
      destruct (skip_ws rest) as [|c r] eqn:Er; [now left|].
      pose proof (skip_ws_cons _ _ _ Er) as L3.
      destruct (Z.eqb c 44).
      * destruct (IHm r ((k, v) :: acc) ltac:(lia))
          as [-> | [v' [rest' [-> L']]]]; [now left|].
        right. eexists _, _. split; [reflexivity | lia].
      * destruct (Z.eqb c 125); [|now left].
        right. eexists _, _. split; [reflexivity | lia].
Qed.

(** The grammar decides [parse]: it fails exactly on a syntax error or
    on text left after the value, never for want of fuel. *)
Lemma parse_never_out_of_fuel (text : jsstring) :
  value (2 * List.length text + 1) text <> OutOfFuel.
Proof.
  destruct (proj1 (value_settles (2 * List.length text + 1)) text
              ltac:(lia)) as [-> | [v [rest [-> _]]]]; discriminate.
Qed.

End JsonFuel.

(** ** The properties at sample inputs *)

Section Instances.

Import Samples.
Import CustomProtocolDemo.

(** The decoder on whole inputs: a two-byte character, a four-byte
    character as a surrogate pair, a byte order mark removed at the
    start only, and a broken sequence replaced by U+FFFD. *)
Example decode_samples :
  snd (TextDecoder.decode TextDecoder.new [x41; xc3; xa9]) = [65; 233] /\
  snd (TextDecoder.decode TextDecoder.new [xf0; x9f; x98; x80])
    = [55357; 56832] /\
  snd (TextDecoder.decode TextDecoder.new [xef; xbb; xbf; x41; xef; xbb; xbf])
    = [65; 65279] /\
  snd (TextDecoder.decode TextDecoder.new [xc3; x41; x80]) = [65533; 65; 65533].
Proof. repeat split; reflexivity. Qed.

(** [JSON.parse] on a few texts. *)
Example parse_samples :
  Json.parse (q "{`a`: [1, 2.50e-3, true, null, `x\u0041`], `b`:{}} ") =
    Some (JObject
            [(js "a",
              JArray
                [JNumber {| negative := false; mantissa := 1;
                            exponent10 := 0 |};
                 JNumber {| negative := false; mantissa := 250;
                            exponent10 := -5 |};
                 JBool true; JNull; JString (js "xA")]);
             (js "b", JObject [])]) /\
  Json.parse (js "01") = None /\
  Json.parse (js "[1,]") = None /\
  Json.parse (q "`abc") = None /\
  Json.parse [] = None /\
  option_map Json.truthy (Json.parse (js "-0.0")) = Some false /\
  option_map Json.truthy (Json.parse (js "2e-324")) = Some false /\
  option_map Json.truthy (Json.parse (js "3e-324")) = Some true.
Proof. repeat split; reflexivity. Qed.

(** The chunks of [chunks0], fed in turn, give the one complete line
    [0:"é"] and leave [9:{}] in the buffer. *)
Example feed_all_chunks0 :
  snd (Reassembler.feed_all Reassembler.init chunks0)
    = [q "0:`" ++ [233] ++ q "`"] /\
  Reassembler.buffer (fst (Reassembler.feed_all Reassembler.init chunks0))
    = js "9:{}".
Proof. split; reflexivity. Qed.

Lemma feed_all_any_splitting_witness :
  List.concat chunks0 = stream0 /\
  snd (Reassembler.feed_all Reassembler.init chunks0)
    = snd (Reassembler.feed_all Reassembler.init [stream0]) /\
  fst (Reassembler.feed_all Reassembler.init chunks0)
    = fst (Reassembler.feed_all Reassembler.init [stream0]).
Proof.
  split; [reflexivity|].
  apply (feed_all_any_splitting stream0 chunks0). reflexivity.
Defined.

Lemma unmatched_line_decoding_witness :
  unmatched compact_table (js "hello") = true /\
  unmatched semantic_table (js "0:hello") = true /\
  DebugPage.parseStreamEvent now0 (js "hello") =
    {| DebugPage.timestamp := now0;
       DebugPage.prefix := js "unknown";
       DebugPage.data := js "hello";
       DebugPage.parsed := None;
       DebugPage.type := DebugPage.unknown |} /\
  parseStreamLine now0 (js "0:hello") = None.
Proof.
  split; [reflexivity|]. split; [reflexivity|].
  apply (unmatched_line_decoding now0 (js "hello") (js "0:hello"));
    reflexivity.
Defined.

(** C2 fails for the semantic variant: a line with no registered
    prefix yields no event there, not an event of kind Unknown. *)
Lemma unmatched_line_semantic_dropped :
  unmatched semantic_table (js "hello") = true /\
  parseStreamLine now0 (js "hello") = None.
Proof. split; reflexivity. Qed.

Lemma malformed_payload_decoding_witness :
  In (js "0:", (js "0", DebugPage.content)) compact_table /\
  startsWith (js "0:{not json") (js "0:") = true /\
  Json.parse (slice 2 (js "0:{not json")) = None /\
  In (PROTOCOL.TEXT, text) semantic_table /\
  startsWith (js "TEXT: {not json") PROTOCOL.TEXT = true /\
  Json.parse (trim (slice 5 (js "TEXT: {not json"))) = None /\
  DebugPage.parseStreamEvent now0 (js "0:{not json") =
    {| DebugPage.timestamp := now0;
       DebugPage.prefix := js "0";
       DebugPage.data := js "{not json";
       DebugPage.parsed := Some (JString (js "{not json"));
       DebugPage.type := DebugPage.content |} /\
  parseStreamLine now0 (js "TEXT: {not json") = None.
Proof.
  assert (H1 : In (js "0:", (js "0", DebugPage.content)) compact_table)
    by (left; reflexivity).
  assert (H2 : In (PROTOCOL.TEXT, text) semantic_table)
    by (left; reflexivity).
  repeat (split; [first [exact H1 | exact H2 | reflexivity]|]).
  apply (malformed_payload_decoding now0
           (js "0:{not json") (js "0:") (js "0") DebugPage.content
           (js "TEXT: {not json") PROTOCOL.TEXT text);
    first [exact H1 | exact H2 | reflexivity].
Defined.

(** C3 fails for the semantic variant: the line of the scenario,
    whose payload after [TEXT:] is not JSON, yields no event. *)
Lemma malformed_payload_semantic_dropped :
  startsWith (js "TEXT: {not json") PROTOCOL.TEXT = true /\
  Json.parse (js "{not json") = None /\
  parseStreamLine now0 (js "TEXT: {not json") = None.
Proof. repeat split; reflexivity. Qed.

Lemma close_discards_residual_witness :
  ok unterminated_response = true /\
  body unterminated_response = Some (map Value [unterminated]) /\
  Reassembler.buffer
    (fst (Reassembler.feed_all Reassembler.init [unterminated]))
    = last (split_nl (q "0:`A`")) [] /\
  DebugPage.events
    (DebugPage.startStreaming clock0 debug0
       (FetchResolved unterminated_response))
    = decoded_debug clock0 (DebugPage.ticks debug0)
        (removelast (split_nl (q "0:`A`"))).
Proof.
  split; [reflexivity|]. split; [reflexivity|].
  apply (close_discards_residual clock0 debug0 unterminated_response
           [unterminated]); reflexivity.
Defined.

(** C4 fails: a stream that closes after the unterminated text
    [0:"A"] leaves that text in the buffer, and no line is flushed
    from it: the log stays empty. *)
Lemma close_flushes_nothing :
  Reassembler.buffer
    (fst (Reassembler.feed_all Reassembler.init [unterminated]))
    = q "0:`A`" /\
  DebugPage.events
    (DebugPage.startStreaming clock0 debug0
       (FetchResolved unterminated_response)) = [].
Proof. split; reflexivity. Qed.

Lemma text_event_appends_witness :
  type (text_event (JString (js " there"))) = text /\
  responseText
    (fst (processEvent integer_toString streaming0
            (text_event (JString (js " there")))))
    = js "Hi there" /\
  (responseText
     (fst (processEvent integer_toString streaming0
             (text_event (JBool true)))) = js "Hitrue" /\
   render_error
     (fst (processEvent integer_toString streaming0
             (text_event (JBool true)))) = false) /\
  (responseText
     (fst (processEvent integer_toString streaming0
             (text_event hides_toString))) = js "Hi" /\
   render_error
     (fst (processEvent integer_toString streaming0
             (text_event hides_toString))) = true) /\
  (responseText
     (fst (processEvent integer_toString streaming0
             (text_event JNull))) = js "Hi" /\
   render_error
     (fst (processEvent integer_toString streaming0
             (text_event JNull))) = false).
Proof.
  split; [reflexivity|]. split; [|split; [|split]].
  - apply (proj1 (text_event_appends integer_toString streaming0
                    (text_event (JString (js " there"))) eq_refl)
             (js " there") eq_refl).
  - apply (proj1 (proj2 (text_event_appends integer_toString streaming0
                           (text_event (JBool true)) eq_refl))
             (js "true") eq_refl eq_refl).
  - apply (proj1 (proj2 (proj2 (text_event_appends integer_toString
                                  streaming0 (text_event hides_toString)
                                  eq_refl)))
             eq_refl eq_refl).
  - apply (proj2 (proj2 (proj2 (text_event_appends integer_toString
                                  streaming0 (text_event JNull) eq_refl)))
             eq_refl).
Defined.

(** C6 fails: the payload [false] is dropped, the text stays [Hi]
    where the claim has [Hifalse]; so is the payload [0]. *)
Lemma falsy_text_dropped :
  ToString integer_toString (JBool false) = Some (js "false") /\
  responseText
    (fst (processEvent integer_toString streaming0
            (text_event (JBool false)))) = js "Hi" /\
  Json.parse (js "0") =
    Some (JNumber {| negative := false; mantissa := 0; exponent10 := 0 |}) /\
  responseText
    (fst (processEvent integer_toString streaming0
            (text_event
               (JNumber {| negative := false; mantissa := 0;
                           exponent10 := 0 |})))) = js "Hi".
Proof. repeat split; reflexivity. Qed.

Lemma payload_substring_witness :
  In (js "0:", (js "0", DebugPage.content)) compact_table /\
  startsWith (q "0: `Hi`") (js "0:") = true /\
  In (PROTOCOL.TEXT, text) semantic_table /\
  startsWith (q "TEXT: `Hi` ") PROTOCOL.TEXT = true /\
  (let e := DebugPage.parseStreamEvent now0 (q "0: `Hi`") in
   q "0: `Hi`" = js "0:" ++ DebugPage.data e /\
   DebugPage.parsed e = Some (DebugPage.parse_or_raw (DebugPage.data e))) /\
  (exists l payload r,
     q "TEXT: `Hi` " = PROTOCOL.TEXT ++ l ++ payload ++ r /\
     blank l = true /\ blank r = true /\
     trimStart payload = payload /\ trimEnd payload = payload /\
     parseStreamLine now0 (q "TEXT: `Hi` ") =
       match Json.parse payload with
       | Some parsed =>
           Some {| type := text; data := parsed;
                   timestamp := now0; raw := q "TEXT: `Hi` " |}
       | None => None
       end).
Proof.
  assert (H1 : In (js "0:", (js "0", DebugPage.content)) compact_table)
    by (left; reflexivity).
  assert (H2 : In (PROTOCOL.TEXT, text) semantic_table)
    by (left; reflexivity).
  repeat (split; [first [exact H1 | exact H2 | reflexivity]|]).
  apply (payload_substring now0
           (q "0: `Hi`") (js "0:") (js "0") DebugPage.content
           (q "TEXT: `Hi` ") PROTOCOL.TEXT text);
    first [exact H1 | exact H2 | reflexivity].
Defined.

(** C7 fails.  In the compact variant the white space after the prefix
    stays in the payload.  In the semantic variant the white space at
    the end of the line is removed as well: what is left of [TEXT:1]
    followed by a no-break space once the prefix is removed is not
    JSON, and yet the line is decoded to the number 1. *)
Lemma payload_not_as_claimed :
  DebugPage.data (DebugPage.parseStreamEvent now0 (js "0: 1")) = js " 1" /\
  slice 5 (js "TEXT:1" ++ [160]) = js "1" ++ [160] /\
  Json.parse (js "1" ++ [160]) = None /\
  parseStreamLine now0 (js "TEXT:1" ++ [160]) =
    Some {| type := text;
            data := JNumber {| negative := false; mantissa := 1;
                               exponent10 := 0 |};
            timestamp := now0;
            raw := js "TEXT:1" ++ [160] |}.
Proof. repeat split; reflexivity. Qed.

Lemma cancel_stops_dispatch_witness :
  abortControllerRef streaming0 <> None /\
  for_await integer_toString clock0 (stopStream streaming0) uninterrupted
    = (stopStream streaming0, Returned) /\
  responseText (stopStream streaming0) = js "Hi" /\
  events (stopStream streaming0) = events streaming0 /\
  aborted (stopStream streaming0) = true /\
  isStreaming (setIsStreaming false (stopStream streaming0)) = false /\
  isStreaming (stopStream streaming0) = false.
Proof.
  split; [discriminate|].
  apply (cancel_stops_dispatch integer_toString clock0 streaming0
           uninterrupted).
  discriminate.
Defined.

(** C8 fails in the code.  With Stop pressed in the delay after the
    first event, and nothing else, the session ends as the claim says:
    the text is the text after that event, the signal is set, the flag
    is cleared.  But with Start pressed in the same delay, after Stop,
    the ref holds the controller of the new session when the cancelled
    loop takes its next turn: the loop goes on, and the event of its
    second chunk is applied, to the text and the log of the new
    session. *)
Theorem cancel_then_restart_resumes :
  let stopped :=
    startStream integer_toString clock0 demo0 LoopSamples.stopped_after_first in
  let raced :=
    startStream integer_toString clock0 demo0 LoopSamples.restart_race in
  (responseText stopped = js "x" /\
   map data (events stopped) = [JString (js "x")] /\
   aborted stopped = true /\ isStreaming stopped = false) /\
  (responseText raced = js "newold" /\
   map data (events raced) = [JString (js "new"); JString (js "old")] /\
   aborted raced = false).
Proof. repeat split; reflexivity. Qed.

(** A text line whose payload is truthy and has no string form. *)
Example text_line_hides_toString :
  parseStreamLine now0 (q "TEXT: {`toString`:1}") =
    Some {| type := text; data := hides_toString;
            timestamp := now0; raw := q "TEXT: {`toString`:1}" |} /\
  Json.truthy hides_toString = true /\
  ToString integer_toString hides_toString = None.
Proof. repeat split; reflexivity. Qed.

Lemma transport_failure_recorded_witness :
  transport_failure (FetchResolved server_error) []
    (Error (js "HTTP error! status: " ++ decimal 500)) /\
  is_AbortError (Error (js "HTTP error! status: " ++ decimal 500)) = false /\
  DebugPage.isStreaming
    (DebugPage.startStreaming clock0 debug0 (FetchResolved server_error))
    = false /\
  DebugPage.events
    (DebugPage.startStreaming clock0 debug0 (FetchResolved server_error))
    = DebugPage.events (DebugPage.startStreaming clock0 debug0 (delivered []))
      ++ [error_event
            (clock0 (DebugPage.ticks
                       (DebugPage.startStreaming clock0 debug0
                          (delivered []))))
            (Error (js "HTTP error! status: " ++ decimal 500))].
Proof.
  assert (H : transport_failure (FetchResolved server_error) []
                (Error (js "HTTP error! status: " ++ decimal 500)))
    by (apply (http_failure server_error); reflexivity).
  split; [exact H|]. split; [reflexivity|].
  apply (transport_failure_recorded clock0 debug0
           (FetchResolved server_error) []
           (Error (js "HTTP error! status: " ++ decimal 500)) H).
  reflexivity.
Defined.

(** The session of a response with status 500: one event, the
    error. *)
Example server_error_session :
  DebugPage.events
    (DebugPage.startStreaming clock0 debug0 (FetchResolved server_error))
  = [ {| DebugPage.timestamp := now0;
         DebugPage.prefix := js "error";
         DebugPage.data := js "Error: Error: HTTP error! status: 500";
         DebugPage.parsed := None;
         DebugPage.type := DebugPage.unknown |} ].
Proof. reflexivity. Qed.

Lemma startStream_while_streaming_witness :
  isStreaming streaming0 = true /\
  startStream integer_toString clock0 streaming0 uninterrupted = streaming0.
Proof.
  split; [reflexivity|].
  apply (startStream_while_streaming integer_toString clock0 streaming0
           uninterrupted).
  reflexivity.
Defined.

(** The simulated stream, run from the mounted page without
    interruption: the accumulated text and the kinds of the eight
    events. *)
Example simulated_session :
  let p := startStream integer_toString clock0 demo0 uninterrupted in
  responseText p =
    js "I'll check the weather in San Francisco for you. The current temperature in San Francisco is 68"
    ++ [176] ++ js "F with foggy conditions." /\
  map type (events p) =
    [debug; text; function_call; function_response; text; text; text;
     metadata] /\
  isStreaming p = false.
Proof. repeat split; reflexivity. Qed.

End Instances.

(** * Further properties of the code *)

(** ** What the reassembler keeps of the text *)

Section ReassemblerText.

Import Reassembler.

Lemma scan_join (s acc : jsstring) :
  join_nl (fst (scan acc s)) (snd (scan acc s)) = acc ++ s.
Proof.
  revert acc. induction s as [|c t IH]; intros acc; simpl.
  - unfold join_nl. simpl. now rewrite app_nil_r.
  - destruct (c =? LF) eqn:Hc.
    + apply Z.eqb_eq in Hc. subst c. specialize (IH []).
      destruct (scan [] t) as [ls r]. unfold join_nl in *. simpl in *.
      rewrite <- !app_assoc. simpl. now rewrite IH.
    + rewrite IH, <- app_assoc. reflexivity.
Qed.

Lemma scan_lines_no_LF (s acc : jsstring) :
  no_LF acc -> Forall no_LF (fst (scan acc s)).
Proof.
  revert acc. induction s as [|c t IH]; intros acc Hacc; simpl.
  - constructor.
  - destruct (c =? LF) eqn:Hc.
    + specialize (IH [] (Forall_nil _)).
      destruct (scan [] t). simpl in *. now constructor.
    + apply IH. apply Forall_app. split; [assumption|].
      constructor; [|constructor]. now apply Z.eqb_neq.
Qed.

Lemma scan_length (s acc : jsstring) :
  List.length (fst (scan acc s)) = LF_count s.
Proof.
  revert acc. unfold LF_count.
  induction s as [|c t IH]; intros acc; simpl.
  - reflexivity.
  - destruct (c =? LF).
    + specialize (IH []). destruct (scan [] t). simpl in *. now rewrite IH.
    + apply IH.
Qed.

(** The lines and the buffer after all the chunks are the [scan] of
    the decoded text. *)
Lemma feed_all_scan (chunks : list (list byte)) :
  feed_all init chunks =
  let (d, text) := TextDecoder.decode TextDecoder.new (List.concat chunks) in
  let (ls, r) := scan [] text in
  ({| decoder := d; buffer := r |}, ls).
Proof.
  rewrite feed_all_concat by constructor.
  now rewrite feed_scan by constructor.
Qed.

(** X1: the reassembler cuts the decoded text at its line feeds and
    loses nothing: no line and no buffer holds a line feed, and the
    lines, each followed by a line feed, followed by the buffer, are
    the decoded text of all the bytes received. *)
Theorem feed_all_partitions_text (chunks : list (list byte)) :
  let text := snd (TextDecoder.decode TextDecoder.new (List.concat chunks)) in
  let st := fst (feed_all init chunks) in
  let lines := snd (feed_all init chunks) in
  Forall no_LF lines /\ no_LF (buffer st) /\
  join_nl lines (buffer st) = text.
Proof.
  cbv zeta. rewrite feed_all_scan.
  destruct (TextDecoder.decode TextDecoder.new (List.concat chunks))
    as [d text].
  pose proof (scan_join text []) as Hj.
  pose proof (scan_lines_no_LF text [] (Forall_nil _)) as Hl.
  pose proof (scan_rest_no_LF text [] (Forall_nil _)) as Hr.
  destruct (scan [] text) as [ls r]. simpl in *. now repeat split.
Qed.

End ReassemblerText.

(** ** Line feeds and the UTF-8 decoder *)

Section DecoderLineFeeds.

Import TextDecoder.

Lemma code_range (b : byte) : 0 <= code b < 256.
Proof. destruct b; unfold code; simpl; lia. Qed.

Lemma lead_ok_all (b : byte) : lead_ok (code b) = true.
Proof. destruct b; reflexivity. Qed.

Lemma land_63_trail (b : byte) :
  (if between 128 (code b) 191
   then Z.land (code b) 63 =? code b - 128 else true) = true.
Proof. destruct b; reflexivity. Qed.

Lemma lor_shiftl_6 (cp k : Z) :
  0 <= cp -> 0 <= k < 64 -> Z.lor (Z.shiftl cp 6) k = cp * 64 + k.
Proof.
  intros Hcp Hk. rewrite Z.shiftl_mul_pow2 by lia.
  change (2 ^ 6) with 64.
  assert (Hland : Z.land (cp * 64) k = 0).
  { apply Z.bits_inj'. intros n Hn.
    rewrite Z.land_spec, Z.bits_0.
    destruct (Z.ltb_spec n 6).
    - change 64 with (2 ^ 6). rewrite Z.mul_pow2_bits_low by lia.
      reflexivity.
    - rewrite <- (Z.mod_small k (2 ^ 6)) by (change (2 ^ 6) with 64; lia).
      rewrite Z.mod_pow2_bits_high by lia. apply andb_false_r. }
  rewrite <- Z.lxor_lor by assumption.
  now rewrite <- Z.add_nocarry_lxor.
Qed.

Lemma lead_pending (b : byte) :
  pending_ok (fst (lead (code b))) /\
  List.length (filter (fun c => c =? LF) (snd (lead (code b)))) =
    (if code b =? LF then 1%nat else 0%nat).
Proof.
  pose proof (lead_ok_all b) as H. unfold lead_ok in H.
  destruct (lead (code b)) as [d out]. simpl.
  apply andb_prop in H as [Hd Hout]. apply Nat.eqb_eq in Hout.
  split; [|assumption].
  apply orb_prop in Hd as [Hd | Hd].
  - left. now apply Z.eqb_eq.
  - right.
    repeat match goal with
           | H : _ && _ = true |- _ => apply andb_prop in H as [? ?]
           end.
    repeat match goal with
           | H : (_ =? _) = true |- _ => apply Z.eqb_eq in H
           | H : (_ <=? _) = true |- _ => apply Z.leb_le in H
           end.
    match goal with H : bytes_seen d = 0 |- _ => rewrite H in * end.
    rewrite Z.sub_0_r. repeat split; try assumption; lia.
Qed.

(** One byte: the state stays admissible, and a line feed comes out
    exactly when the byte is 0x0A. *)
Lemma handler_pending (d : utf8) (b : byte) :
  pending_ok d ->
  pending_ok (fst (handler d (code b))) /\
  List.length (filter (fun c => c =? LF) (snd (handler d (code b)))) =
    (if code b =? LF then 1%nat else 0%nat).
Proof.
  intros Hd. unfold handler.
  destruct (bytes_needed d =? 0) eqn:Hn; [apply lead_pending|].
  apply Z.eqb_neq in Hn. destruct Hd as [Hd | Hd]; [contradiction|].
  destruct Hd as [Hseen [Hneed [Hlo [Hup [Hcp Hmin]]]]].
  destruct (negb (between (lower_boundary d) (code b) (upper_boundary d)))
    eqn:Hb.
  - pose proof (lead_pending b) as [Hp Hc].
    destruct (lead (code b)) as [d' out]. simpl in *. split; assumption.
  - apply negb_false_iff in Hb. unfold between in Hb.
    apply andb_prop in Hb as [Hb1 Hb2].
    apply Z.leb_le in Hb1. apply Z.leb_le in Hb2.
    pose proof (land_63_trail b) as Hl. unfold between in Hl.
    replace (128 <=? code b) with true in Hl
      by (symmetry; apply Z.leb_le; lia).
    replace (code b <=? 191) with true in Hl
      by (symmetry; apply Z.leb_le; lia).
    simpl in Hl. apply Z.eqb_eq in Hl. rewrite Hl.
    rewrite lor_shiftl_6 by lia.
    replace (code b =? LF) with false
      by (symmetry; apply Z.eqb_neq; unfold LF; lia).
    assert (Hcases : (bytes_needed d = 1 /\ bytes_seen d = 0) \/
                     (bytes_needed d = 2 /\ bytes_seen d = 0) \/
                     (bytes_needed d = 2 /\ bytes_seen d = 1) \/
                     (bytes_needed d = 3 /\ bytes_seen d = 0) \/
                     (bytes_needed d = 3 /\ bytes_seen d = 1) \/
                     (bytes_needed d = 3 /\ bytes_seen d = 2)) by lia.
    destruct Hcases as [[E1 E2] | [[E1 E2] | [[E1 E2] | [[E1 E2] |
                        [[E1 E2] | [E1 E2]]]]]];
      rewrite E1, E2 in *; simpl in Hmin |- *;
      try (split; [left; reflexivity|];
           replace (code_point d * 64 + (code b - 128) =? LF) with false
             by (symmetry; apply Z.eqb_neq; unfold LF; lia);
           reflexivity);
      (split; [|reflexivity]; right; simpl; repeat split; lia).
Qed.

Lemma utf16_LF (cp : Z) :
  LF_count (utf16 cp) = if cp =? LF then 1%nat else 0%nat.
Proof.
  unfold utf16, LF_count. destruct (Z.ltb_spec cp 65536).
  - cbn [filter]. destruct (cp =? LF); reflexivity.
  - assert (H1 : 0 <= Z.shiftr (cp - 65536) 10)
      by (apply Z.shiftr_nonneg; lia).
    assert (H2 : 0 <= Z.land (cp - 65536) 1023)
      by (apply Z.land_nonneg; lia).
    cbn [filter].
    replace (55296 + Z.shiftr (cp - 65536) 10 =? LF) with false
      by (symmetry; apply Z.eqb_neq; unfold LF; lia).
    replace (56320 + Z.land (cp - 65536) 1023 =? LF) with false
      by (symmetry; apply Z.eqb_neq; unfold LF; lia).
    replace (cp =? LF) with false
      by (symmetry; apply Z.eqb_neq; unfold LF; lia).
    reflexivity.
Qed.

Lemma LF_count_app (a b : jsstring) :
  LF_count (a ++ b) = (LF_count a + LF_count b)%nat.
Proof. unfold LF_count. now rewrite filter_app, length_app. Qed.

Lemma serialize_LF (cps : list Z) (seen : bool) :
  LF_count (snd (serialize seen cps)) =
  List.length (filter (fun c => c =? LF) cps).
Proof.
  revert seen. induction cps as [|cp r IH]; intros seen; simpl.
  - reflexivity.
  - specialize (IH true). destruct (serialize true r) as [s' out].
    simpl in *. rewrite LF_count_app, IH.
    destruct (negb seen && (cp =? 65279)) eqn:Hb.
    + apply andb_prop in Hb as [_ Hb]. apply Z.eqb_eq in Hb. subst cp.
      reflexivity.
    + rewrite utf16_LF. destruct (cp =? LF); reflexivity.
Qed.

Lemma step_pending (d : t) (b : byte) :
  pending_ok (dec d) ->
  pending_ok (dec (fst (step d b))) /\
  LF_count (snd (step d b)) = (if code b =? LF then 1%nat else 0%nat).
Proof.
  intros Hd. unfold step. fold (code b).
  pose proof (handler_pending (dec d) b Hd) as [Hp Hc].
  destruct (handler (dec d) (code b)) as [u cps].
  pose proof (serialize_LF cps (BOM_seen d)) as Hs.
  destruct (serialize (BOM_seen d) cps) as [seen out].
  simpl in *. split; [assumption | congruence].
Qed.

(** The decoded text has one line feed for every 0x0A byte, wherever
    the byte stands, and no other. *)
Lemma decode_LF (bs : list byte) (d : t) :
  pending_ok (dec d) ->
  pending_ok (dec (fst (decode d bs))) /\
  LF_count (snd (decode d bs)) = LF_bytes bs.
Proof.
  revert d. induction bs as [|b r IH]; intros d Hd; simpl.
  - split; [assumption | reflexivity].
  - pose proof (step_pending d b Hd) as [Hp Hc].
    destruct (step d b) as [d1 o1]. simpl in Hp, Hc.
    destruct (IH d1 Hp) as [Hp2 Hc2].
    destruct (decode d1 r) as [d2 o2]. simpl in *.
    split; [assumption|].
    rewrite LF_count_app, Hc, Hc2. unfold LF_bytes. simpl.
    destruct (code b =? LF); reflexivity.
Qed.

(** X2: the read loop produces exactly one line for every 0x0A byte
    it has received, however the bytes are cut into chunks and whatever
    else they hold: no multi-byte or malformed sequence decodes to a
    line feed, and none swallows one. *)
Theorem one_line_per_LF_byte (chunks : list (list byte)) :
  List.length (snd (Reassembler.feed_all Reassembler.init chunks)) =
  LF_bytes (List.concat chunks).
Proof.
  rewrite feed_all_scan.
  assert (Hnew : pending_ok (dec new)) by (left; reflexivity).
  pose proof (decode_LF (List.concat chunks) new Hnew) as [_ Hc].
  destruct (decode new (List.concat chunks)) as [d text].
  pose proof (scan_length text []) as Hl.
  destruct (scan [] text) as [ls r]. simpl in *. congruence.
Qed.

Lemma step_ascii (d : t) (b : byte) :
  bytes_needed (dec d) = 0 -> code b < 128 ->
  step d b = ({| dec := utf8_init; BOM_seen := true |}, [code b]).
Proof.
  intros Hn Hb. pose proof (code_range b) as Hr.
  unfold step, handler. fold (code b). rewrite Hn. simpl Z.eqb. cbv iota.
  unfold lead, between.
  replace (0 <=? code b) with true by (symmetry; apply Z.leb_le; lia).
  replace (code b <=? 127) with true by (symmetry; apply Z.leb_le; lia).
  simpl.
  replace (code b =? 65279) with false by (symmetry; apply Z.eqb_neq; lia).
  rewrite andb_false_r. unfold utf16.
  replace (code b <? 65536) with true by (symmetry; apply Z.ltb_lt; lia).
  reflexivity.
Qed.

Lemma decode_ascii (bs : list byte) (d : t) :
  bytes_needed (dec d) = 0 -> ascii_only bs ->
  snd (decode d bs) = map code bs.
Proof.
  intros Hn Ha. revert d Hn.
  induction Ha as [|b r Hb _ IH]; intros d Hn; simpl.
  - reflexivity.
  - rewrite step_ascii by assumption.
    specialize (IH {| dec := utf8_init; BOM_seen := true |} eq_refl).
    destruct (decode _ r) as [d2 o2]. simpl in *. now rewrite IH.
Qed.

(** X3: when every byte received is below 0x80, the lines are the
    segments of the bytes themselves, read as characters, that a line
    feed ends, and the buffer is the segment after the last line
    feed. *)
Theorem ascii_lines (chunks : list (list byte)) :
  ascii_only (List.concat chunks) ->
  let text := map code (List.concat chunks) in
  snd (Reassembler.feed_all Reassembler.init chunks)
    = removelast (split_nl text) /\
  Reassembler.buffer (fst (Reassembler.feed_all Reassembler.init chunks))
    = last (split_nl text) [].
Proof.
  intros Ha. cbv zeta.
  rewrite <- (decode_ascii (List.concat chunks) new eq_refl Ha).
  apply feed_all_text.
Qed.

End DecoderLineFeeds.

(** ** The log of the debug console *)

Section DebugLog.

Import DebugPage.

Variable clock : nat -> jsstring.

(** X4: the compact decoder loses nothing of a line: for an event of
    a table prefix the label, a colon and the data are the line again,
    and for an event of kind [unknown] the data is the line. *)
Theorem parseStreamEvent_rebuild (now line : jsstring) :
  rebuild (parseStreamEvent now line) = line.
Proof.
  unfold parseStreamEvent, rebuild.
  repeat match goal with
         | |- context [if startsWith line ?p then _ else _] =>
             let E := fresh "E" in
             destruct (startsWith line p) eqn:E;
               [apply startsWith_skipn in E; simpl in E |- *;
                now rewrite <- E |]
         end.
  reflexivity.
Qed.

Lemma parseStreamEvent_entry (now line : jsstring) :
  entry_of_line (parseStreamEvent now line) line.
Proof.
  unfold parseStreamEvent, entry_of_line, unmatched, compact_table.
  cbn [forallb fst].
  repeat match goal with
         | |- context [if startsWith line ?p then _ else _] =>
             let E := fresh "E" in
             destruct (startsWith line p) eqn:E;
               [right; exists p; split; [exact E|];
                split; [cbn; auto 10 | split; reflexivity] |]
         end.
  left. cbn. auto.
Qed.

Lemma decoded_debug_ok (lines : list jsstring) (n : nat) :
  Forall log_entry_ok (decoded_debug clock n lines).
Proof.
  revert n. induction lines as [|line r IH]; intros n; simpl.
  - constructor.
  - destruct (JsString.truthy (trim line)) eqn:Hb; [|apply IH].
    constructor; [|apply IH].
    left. exists line. split; [exact Hb | apply parseStreamEvent_entry].
Qed.

Lemma decoded_debug_length (lines : list jsstring) (n : nat) :
  List.length (decoded_debug clock n lines) =
  List.length (filter nonblank lines).
Proof.
  revert n. induction lines as [|line r IH]; intros n; simpl.
  - reflexivity.
  - unfold nonblank at 1.
    destruct (JsString.truthy (trim line)); simpl; now rewrite IH.
Qed.

Lemma process_lines_ticks (lines : list jsstring) (p : page) :
  ticks (process_lines clock p lines) =
  (ticks p + List.length (filter nonblank lines))%nat.
Proof.
  revert p. induction lines as [|line r IH]; intros p; simpl.
  - lia.
  - unfold nonblank at 1.
    destruct (JsString.truthy (trim line)); [|apply IH].
    rewrite IH. simpl. lia.
Qed.

Lemma process_lines_ok (lines : list jsstring) (p : page) :
  Forall log_entry_ok (events p) ->
  Forall log_entry_ok (events (process_lines clock p lines)).
Proof.
  intros H. rewrite (proj1 (debug_process_lines_events clock lines p)).
  apply Forall_app. split; [assumption | apply decoded_debug_ok].
Qed.

Lemma read_loop_ok (reads : list read_result)
  (st : Reassembler.state) (p : page) :
  Forall log_entry_ok (events p) ->
  Forall log_entry_ok (events (fst (read_loop clock st p reads))).
Proof.
  revert st p. induction reads as [|[value | e] r IH]; intros st p H; simpl.
  - assumption.
  - destruct (Reassembler.feed st value) as [st1 lines].
    apply IH. now apply process_lines_ok.
  - assumption.
Qed.

Lemma catch_ok (e : JsError) (p : page) :
  Forall log_entry_ok (events p) ->
  Forall log_entry_ok (events (catch clock e p)).
Proof.
  intros H. unfold catch.
  destruct (instanceof_Error e && JsString.eqb (name e) (js "AbortError"));
    [assumption|].
  simpl. apply Forall_app. split; [assumption|].
  constructor; [|constructor].
  right. split; [reflexivity|]. split; [reflexivity|].
  split; [reflexivity|]. cbn. now destruct (to_string e).
Qed.

(** X5: whatever the transport does, every entry of the log of a
    session is the decoding of a line that is not blank, or the record
    of a failure.  The decoding of a line carries a parsed value exactly
    when the line starts with a table prefix, and then the label and
    the kind of that prefix and the line without the prefix as its
    data; for a line that starts with none it is an event of kind
    [unknown], labelled [unknown], whose data is the line.  The record
    of a failure is of kind [unknown], labelled [error], without a
    parsed value. *)
Theorem debug_log_events_ok (p : page) (f : fetch_result) :
  Forall log_entry_ok (events (startStreaming clock p f)).
Proof.
  unfold startStreaming.
  set (p1 := set_abortControllerRef _ _).
  assert (H1 : Forall log_entry_ok (events p1)) by constructor.
  assert (H2 : Forall log_entry_ok (events (fst (try_body clock p1 f)))).
  { unfold try_body. destruct f as [e | r]; [assumption|].
    destruct (negb (ok r)); [assumption|].
    destruct (body r) as [reads|]; [|assumption].
    now apply read_loop_ok. }
  destruct (try_body clock p1 f) as [p2 [e|]]; simpl in *.
  - now apply catch_ok.
  - assumption.
Qed.

(** X6: the debug console drops no line: the log of a session that
    was delivered [chunks] has exactly one event for every line of the
    reassembler that is not blank. *)
Theorem debug_one_event_per_line (p : page) (chunks : list (list byte)) :
  List.length (events (startStreaming clock p (delivered chunks))) =
  List.length
    (filter nonblank (snd (Reassembler.feed_all Reassembler.init chunks))).
Proof.
  rewrite startStreaming_delivered. simpl.
  rewrite (proj1 (debug_process_lines_events clock _ _)).
  simpl. apply decoded_debug_length.
Qed.

(** X7: an abort is not recorded as a failure: when the request or
    a read is rejected with an AbortError, the log of the session is
    the log of the chunks delivered before, with no synthetic event,
    and the streaming flag is cleared. *)
Theorem abort_not_recorded
  (p : page) (f : fetch_result) (chunks : list (list byte)) (e : JsError) :
  transport_failure f chunks e ->
  is_AbortError e = true ->
  events (startStreaming clock p f)
    = events (startStreaming clock p (delivered chunks)) /\
  isStreaming (startStreaming clock p f) = false.
Proof.
  intros Hf Ha. split.
  2: { unfold startStreaming. destruct (try_body clock _ f). reflexivity. }
  unfold is_AbortError in Ha.
  destruct Hf as [e | r Hok | r chunks e rest Hok Hbody];
    rewrite startStreaming_delivered;
    unfold startStreaming, try_body.
  - unfold catch. rewrite Ha. reflexivity.
  - discriminate Ha.
  - rewrite Hok, Hbody. simpl negb. cbv iota.
    rewrite read_loop_rejected. unfold catch. rewrite Ha.
    reflexivity.
Qed.

Lemma read_loop_rebase (reads : list read_result)
  (st : Reassembler.state) (p p' : page) :
  ticks p = ticks p' ->
  snd (read_loop clock st p reads) = snd (read_loop clock st p' reads) /\
  ticks (fst (read_loop clock st p reads))
    = ticks (fst (read_loop clock st p' reads)) /\
  exists tail,
    events (fst (read_loop clock st p reads)) = events p ++ tail /\
    events (fst (read_loop clock st p' reads)) = events p' ++ tail.
Proof.
  revert st p p'.
  induction reads as [|[value | e] r IH]; intros st p p' Ht; simpl.
  - repeat split; [assumption|]. exists []. now rewrite !app_nil_r.
  - destruct (Reassembler.feed st value) as [st1 lines].
    destruct (IH st1 (process_lines clock p lines)
                (process_lines clock p' lines)) as [Ho [Hk [tail [E1 E2]]]].
    { rewrite !process_lines_ticks. now rewrite Ht. }
    repeat split; [assumption | assumption |].
    exists (decoded_debug clock (ticks p) lines ++ tail).
    rewrite E1, E2.
    rewrite !(proj1 (debug_process_lines_events clock _ _)).
    rewrite Ht, !app_assoc. split; reflexivity.
  - repeat split; [assumption|]. exists []. now rewrite !app_nil_r.
Qed.

(** X8: [startStreaming] empties the log before it does anything
    else: for the same input in the request and the same behaviour of
    the transport, and the clock read equally often, the log of the
    session does not depend on the log, the streaming flag and the
    abort controller the page had before. *)
Theorem debug_session_fresh (p p' : page) (f : fetch_result) :
  input p = input p' ->
  ticks p = ticks p' ->
  events (startStreaming clock p f) = events (startStreaming clock p' f).
Proof.
  intros _ Ht. unfold startStreaming.
  set (p1 := set_abortControllerRef _ (setIsStreaming true (setEvents _ p))).
  set (p1' := set_abortControllerRef _ (setIsStreaming true (setEvents _ p'))).
  assert (H : snd (try_body clock p1 f) = snd (try_body clock p1' f) /\
              ticks (fst (try_body clock p1 f))
                = ticks (fst (try_body clock p1' f)) /\
              events (fst (try_body clock p1 f))
                = events (fst (try_body clock p1' f))).
  { unfold try_body. destruct f as [e | r]; [now repeat split|].
    destruct (negb (ok r)); [now repeat split|].
    destruct (body r) as [reads|]; [|now repeat split].
    destruct (read_loop_rebase reads Reassembler.init p1 p1' Ht)
      as [Ho [Hk [tail [E1 E2]]]].
    repeat split; [assumption | assumption |].
    now rewrite E1, E2. }
  destruct (try_body clock p1 f) as [p2 o].
  destruct (try_body clock p1' f) as [p2' o'].
  simpl in H. destruct H as [<- [Hk He]].
  destruct o as [e|]; simpl; [|assumption].
  unfold catch.
  destruct (instanceof_Error e && JsString.eqb (name e) (js "AbortError"));
    [assumption|].
  simpl. now rewrite He, Hk.
Qed.

End DebugLog.

(** ** The prefixes *)

Section Prefixes.

Import CustomProtocolDemo.

(** X9: the nine prefixes of the two tables start with different
    characters, so a line starts with at most one of them: the order
    of the tests in the two decoders has no influence on the branch a
    line takes. *)
Theorem prefix_unambiguous (line p1 p2 : jsstring) :
  In p1 all_prefixes -> In p2 all_prefixes ->
  startsWith line p1 = true -> startsWith line p2 = true ->
  p1 = p2.
Proof.
  unfold all_prefixes, compact_table, semantic_table.
  cbn [map fst app In]. intros H1 H2 S1 S2.
  repeat match goal with
         | H : _ \/ _ |- _ => destruct H as [H | H]
         | H : False |- _ => destruct H
         end;
    subst p1 p2; try reflexivity;
    exfalso;
    match goal with
    | S1 : startsWith line ?a = true, S2 : startsWith line ?b = true |- _ =>
        assert (E : startsWith line b = false)
          by (eapply startsWith_other; [exact S1 | discriminate]);
        rewrite E in S2; discriminate S2
    end.
Qed.

(** X10: every event the semantic decoder yields comes from a line
    that is not blank and starts with a prefix of the table; the event
    has the kind of that prefix, the line as its raw text, and as its
    data the JSON value of the trimmed remainder of the line. *)
Theorem parseStreamLine_sound
  (now line : jsstring) (e : CustomStreamEvent) :
  parseStreamLine now line = Some e ->
  exists pfx,
    In (pfx, type e) semantic_table /\
    startsWith line pfx = true /\
    Json.parse (trim (slice (List.length pfx) line)) = Some (data e) /\
    raw e = line /\ timestamp e = now /\ nonblank line = true.
Proof.
  unfold parseStreamLine, nonblank.
  destruct (JsString.truthy (trim line)); simpl negb; cbv iota;
    [|discriminate].
  repeat match goal with
         | |- context [if startsWith line ?p then _ else _] =>
             let E := fresh "E" in
             destruct (startsWith line p) eqn:E;
               [unfold branch;
                destruct (Json.parse (trim (slice (List.length p) line)))
                  as [v|] eqn:Hv; [|discriminate];
                intros [= <-]; exists p;
                repeat split; try assumption;
                unfold semantic_table; cbn [In]; auto 10 |]
         end.
  discriminate.
Qed.

End Prefixes.

(** ** The accumulated text of the demo page *)

Section DemoText.

Import CustomProtocolDemo.

Variable Number_toString : JsNumber -> jsstring.
Variable clock : nat -> jsstring.

Lemma processEvent_text (p : page) (e : CustomStreamEvent) :
  responseText (fst (processEvent Number_toString p e)) =
  responseText p ++ contribution Number_toString e.
Proof.
  unfold processEvent, contribution.
  destruct (type e); simpl; try now rewrite app_nil_r.
  unfold setResponseText, append_data. simpl.
  destruct (Json.truthy (data e)); simpl; [|reflexivity].
  destruct (ToString Number_toString (data e)); simpl;
    [reflexivity | now rewrite app_nil_r].
Qed.

Lemma process_lines_contributions (lines : list jsstring) (p : page) :
  responseText (fst (process_lines Number_toString clock p lines)) =
  responseText p ++
  List.concat (map (contribution Number_toString)
                 (decoded_demo Number_toString clock (ticks p) lines)).
Proof.
  revert p. induction lines as [|line r IH]; intros p; simpl.
  - now rewrite app_nil_r.
  - destruct (JsString.truthy (trim line)); [|apply IH].
    destruct (parseStreamLine (clock (ticks p)) line) as [e|].
    + pose proof (processEvent_text (tick p) e) as He.
      pose proof (processEvent_ticks Number_toString (tick p) e) as Ht.
      pose proof (processEvent_outcome Number_toString (tick p) e) as Ho.
      destruct (processEvent Number_toString (tick p) e) as [p1 o].
      simpl in He, Ht, Ho. rewrite <- Ho.
      destruct o; simpl.
      * rewrite IH, He, Ht, <- app_assoc. reflexivity.
      * now rewrite He, app_nil_r.
    + now rewrite IH.
Qed.

(** X11: the text of the demo page after the lines of a chunk is the
    text before, followed by the payloads of the text events decoded
    from the chunk, in order, each truthy payload in its string form;
    events of the other kinds and falsy payloads add nothing. *)
Theorem process_lines_text (lines : list jsstring) (p : page) :
  responseText (fst (process_lines Number_toString clock p lines)) =
  responseText p ++
  List.concat (map (contribution Number_toString)
                 (decoded_demo Number_toString clock (ticks p) lines)).
Proof. apply process_lines_contributions. Qed.

Lemma stopStream_keeps (p : page) :
  responseText (stopStream p) = responseText p /\
  events (stopStream p) = events p.
Proof. unfold stopStream. destruct (abortControllerRef p); now split. Qed.

Lemma loop_turn_grows (p : page) (next : option jsstring) :
  exists t es,
    responseText (loop_turn Number_toString clock p next)
      = responseText p ++ t /\
    events (loop_turn Number_toString clock p next) = events p ++ es.
Proof.
  unfold loop_turn. destruct next as [chunk|].
  2: { exists [], []. simpl. now rewrite !app_nil_r. }
  destruct (aborted p).
  { exists [], []. simpl. now rewrite !app_nil_r. }
  pose proof (process_lines_contributions (split_nl chunk) p) as Ht.
  pose proof (process_lines_events Number_toString clock
                (split_nl chunk) p) as He.
  destruct (process_lines Number_toString clock p (split_nl chunk))
    as [p1 o].
  simpl in Ht, He. destruct o; simpl; rewrite Ht, He;
    eexists _, _; split; reflexivity.
Qed.

Lemma delay_grows (delay : list happening) (p : page) :
  forallb not_start delay = true ->
  exists t es,
    responseText (fold_left (happens Number_toString clock) delay p)
      = responseText p ++ t /\
    events (fold_left (happens Number_toString clock) delay p)
      = events p ++ es.
Proof.
  revert p. induction delay as [|h r IH]; intros p Hd; simpl.
  - exists [], []. now rewrite !app_nil_r.
  - simpl in Hd. apply andb_prop in Hd as [Hh Hr].
    destruct (IH (happens Number_toString clock p h) Hr)
      as [t [es [E1 E2]]].
    rewrite E1, E2.
    assert (K : exists t' es',
               responseText (happens Number_toString clock p h)
                 = responseText p ++ t' /\
               events (happens Number_toString clock p h)
                 = events p ++ es').
    { destruct h as [| first | next]; simpl.
      - destruct (stopStream_keeps p) as [-> ->].
        exists [], []. now rewrite !app_nil_r.
      - discriminate Hh.
      - apply loop_turn_grows. }
    destruct K as [t' [es' [-> ->]]]. rewrite <- !app_assoc.
    eexists _, _. split; reflexivity.
Qed.

(** X12: from the first chunk to the end of the loop the text and
    the log only grow: whatever the stream holds, whenever Stop is
    pressed and whatever turns other pending loops take in the delays,
    the text and the log at the end begin with the text and the log at
    the start, as long as Start is not pressed in a delay (which
    empties both). *)
Theorem for_await_append_only
  (stream : list (jsstring * list happening)) (p : page) :
  no_restart stream = true ->
  exists t es,
    responseText (fst (for_await Number_toString clock p stream))
      = responseText p ++ t /\
    events (fst (for_await Number_toString clock p stream))
      = events p ++ es.
Proof.
  revert p. induction stream as [|[chunk delay] r IH]; intros p Hs; simpl.
  - exists [], []. now rewrite !app_nil_r.
  - destruct (aborted p).
    { exists [], []. now rewrite !app_nil_r. }
    unfold no_restart in Hs. simpl in Hs. apply andb_prop in Hs as [Hd Hr].
    pose proof (process_lines_contributions (split_nl chunk) p) as Ht.
    pose proof (process_lines_events Number_toString clock
                  (split_nl chunk) p) as He.
    destruct (process_lines Number_toString clock p (split_nl chunk))
      as [p1 o].
    simpl in Ht, He. destruct o.
    + destruct (IH (fold_left (happens Number_toString clock) delay p1) Hr)
        as [t [es [E1 E2]]].
      rewrite E1, E2.
      destruct (delay_grows delay p1 Hd) as [t' [es' [-> ->]]].
      rewrite Ht, He, <- !app_assoc.
      eexists _, _. split; reflexivity.
    + simpl. rewrite Ht, He. eexists _, _. split; reflexivity.
Qed.

Lemma processEvent_same (a b : page) (e : CustomStreamEvent) :
  same_run a b ->
  same_run (fst (processEvent Number_toString a e))
           (fst (processEvent Number_toString b e)) /\
  snd (processEvent Number_toString a e)
    = snd (processEvent Number_toString b e).
Proof.
  intros [Ht [He [Hc [Hk Hs]]]]. unfold processEvent, same_run.
  destruct (type e); simpl; try (now rewrite He; repeat split).
  unfold setResponseText. simpl. rewrite Ht.
  destruct (append_data Number_toString (data e) (responseText b)); simpl;
    rewrite He; now repeat split.
Qed.

Lemma tick_same (a b : page) : same_run a b -> same_run (tick a) (tick b).
Proof.
  intros [Ht [He [Hc [Hk Hs]]]]. unfold same_run. simpl.
  repeat split; try assumption. now f_equal.
Qed.

Lemma process_lines_same (lines : list jsstring) (a b : page) :
  same_run a b ->
  same_run (fst (process_lines Number_toString clock a lines))
           (fst (process_lines Number_toString clock b lines)) /\
  snd (process_lines Number_toString clock a lines)
    = snd (process_lines Number_toString clock b lines).
Proof.
  revert a b. induction lines as [|line r IH]; intros a b H; simpl.
  - now split.
  - destruct (JsString.truthy (trim line)); [|now apply IH].
    assert (Hk : ticks a = ticks b) by apply H. rewrite Hk.
    destruct (parseStreamLine (clock (ticks b)) line) as [e|].
    + destruct (processEvent_same (tick a) (tick b) e (tick_same a b H))
        as [Hs Ho].
      destruct (processEvent Number_toString (tick a) e) as [a1 oa].
      destruct (processEvent Number_toString (tick b) e) as [b1 ob].
      simpl in Hs, Ho. subst ob.
      destruct oa; [now apply IH | now split].
    + apply IH. now apply tick_same.
Qed.

Lemma same_run_aborted (a b : page) : same_run a b -> aborted a = aborted b.
Proof. intros [_ [_ [Hc _]]]. unfold aborted. now rewrite Hc. Qed.

Lemma setIsStreaming_same (a b : page) (f : bool) :
  same_run a b -> same_run (setIsStreaming f a) (setIsStreaming f b).
Proof.
  intros [Ht [He [Hc [Hk Hs]]]]. unfold same_run. simpl. now repeat split.
Qed.

Lemma stopStream_same (a b : page) :
  same_run a b -> same_run (stopStream a) (stopStream b).
Proof.
  intros [Ht [He [Hc [Hk Hs]]]]. unfold stopStream, same_run. rewrite Hc.
  destruct (abortControllerRef b) eqn:Eb; simpl; repeat split; congruence.
Qed.

Lemma loop_turn_same (a b : page) (next : option jsstring) :
  same_run a b ->
  same_run (loop_turn Number_toString clock a next)
           (loop_turn Number_toString clock b next).
Proof.
  intros H. unfold loop_turn. destruct next as [chunk|].
  2: now apply setIsStreaming_same.
  rewrite (same_run_aborted a b H).
  destruct (aborted b); [now apply setIsStreaming_same|].
  destruct (process_lines_same (split_nl chunk) a b H) as [Hs Ho].
  destruct (process_lines Number_toString clock a (split_nl chunk))
    as [a1 oa].
  destruct (process_lines Number_toString clock b (split_nl chunk))
    as [b1 ob].
  simpl in Hs, Ho. subst ob.
  destruct oa; [assumption | now apply setIsStreaming_same].
Qed.

Lemma begin_session_same (a b : page) :
  ticks a = ticks b -> same_run (begin_session a) (begin_session b).
Proof. intros H. unfold same_run. simpl. now repeat split. Qed.

Lemma happens_same (a b : page) (h : happening) :
  same_run a b ->
  same_run (happens Number_toString clock a h)
           (happens Number_toString clock b h).
Proof.
  intros H. destruct h as [| first | next]; simpl.
  - now apply stopStream_same.
  - assert (Hs : isStreaming a = isStreaming b) by apply H. rewrite Hs.
    destruct (isStreaming b); [assumption|].
    apply loop_turn_same. apply begin_session_same. apply H.
  - now apply loop_turn_same.
Qed.

Lemma delay_same (delay : list happening) (a b : page) :
  same_run a b ->
  same_run (fold_left (happens Number_toString clock) delay a)
           (fold_left (happens Number_toString clock) delay b).
Proof.
  revert a b. induction delay as [|h r IH]; intros a b H; simpl.
  - assumption.
  - apply IH. now apply happens_same.
Qed.

Lemma for_await_same (stream : list (jsstring * list happening))
  (a b : page) :
  same_run a b ->
  same_run (fst (for_await Number_toString clock a stream))
           (fst (for_await Number_toString clock b stream)).
Proof.
  revert a b. induction stream as [|[chunk delay] r IH]; intros a b H; simpl.
  - assumption.
  - rewrite (same_run_aborted a b H). destruct (aborted b); [assumption|].
    destruct (process_lines_same (split_nl chunk) a b H) as [Hs Ho].
    destruct (process_lines Number_toString clock a (split_nl chunk))
      as [a1 oa].
    destruct (process_lines Number_toString clock b (split_nl chunk))
      as [b1 ob].
    simpl in Hs, Ho. subst ob. destruct oa; [|assumption].
    apply IH. now apply delay_same.
Qed.

(** X13: [startStream] empties the text and the log and replaces
    the controller before its loop: two pages that are not streaming
    and have read the clock equally often end a session with the same
    text and the same log, whatever text, log, input and controller
    they had before, when the stream is the same and the same things
    happen in the delays.  The turns of a loop that an earlier
    session left pending are such things: a page that still has such a
    loop is not covered by comparing it with a page that has none. *)
Theorem demo_session_fresh
  (p p' : page) (stream : list (jsstring * list happening)) :
  isStreaming p = false -> isStreaming p' = false ->
  ticks p = ticks p' ->
  responseText (startStream Number_toString clock p stream)
    = responseText (startStream Number_toString clock p' stream) /\
  events (startStream Number_toString clock p stream)
    = events (startStream Number_toString clock p' stream).
Proof.
  intros Hp Hp' Hk. unfold startStream. rewrite Hp, Hp'.
  pose proof (for_await_same stream _ _ (begin_session_same p p' Hk)) as H.
  destruct (for_await Number_toString clock (begin_session p) stream)
    as [p2 o].
  destruct (for_await Number_toString clock (begin_session p') stream)
    as [p2' o'].
  simpl in H |- *. destruct H as [Ht [He _]]. now split.
Qed.

End DemoText.

(** ** Strings through [JSON.stringify] and the decoders *)

Section StringRoundTrip.

Import Json JsonStringify CustomProtocolDemo.

Lemma string_chars_raw (c : codeunit) (tl : jsstring) :
  32 <= c -> c <> 34 -> c <> 92 ->
  string_chars (c :: tl) = cons_char c (string_chars tl).
Proof.
  intros H1 H2 H3. cbn [string_chars].
  apply Z.eqb_neq in H2. apply Z.eqb_neq in H3. rewrite H2, H3.
  replace (c <? 32) with false by (symmetry; apply Z.ltb_ge; lia).
  reflexivity.
Qed.

Lemma string_chars_escape (e x : codeunit) (tl : jsstring) :
  e <> 117 -> escape e = Some x ->
  string_chars (92 :: e :: tl) = cons_char x (string_chars tl).
Proof.
  intros H1 H2. cbn [string_chars]. apply Z.eqb_neq in H1.
  change (92 =? 34) with false. change (92 =? 92) with true. cbv iota.
  now rewrite H1, H2.
Qed.

Lemma string_chars_u (a b c d u : codeunit) (tl : jsstring) :
  hex4 a b c d = Some u ->
  string_chars (92 :: 117 :: a :: b :: c :: d :: tl)
    = cons_char u (string_chars tl).
Proof.
  intros H. cbn [string_chars].
  change (92 =? 34) with false. change (92 =? 92) with true.
  change (117 =? 117) with true. cbv iota. now rewrite H.
Qed.

Lemma hex_digit_char (d : Z) :
  0 <= d < 16 -> hex_digit (hex_char d) = Some d.
Proof.
  intros H. unfold hex_digit, hex_char, is_digit.
  destruct (Z.ltb_spec d 10).
  - replace (48 <=? 48 + d) with true by (symmetry; apply Z.leb_le; lia).
    replace (48 + d <=? 57) with true by (symmetry; apply Z.leb_le; lia).
    cbn [andb]. f_equal. lia.
  - replace (87 + d <=? 57) with false by (symmetry; apply Z.leb_gt; lia).
    rewrite andb_false_r.
    replace (97 <=? 87 + d) with true by (symmetry; apply Z.leb_le; lia).
    replace (87 + d <=? 102) with true by (symmetry; apply Z.leb_le; lia).
    cbn [andb]. f_equal. lia.
Qed.

Lemma hex4_escape (c : codeunit) :
  0 <= c < 65536 ->
  hex4 (hex_char (c / 4096)) (hex_char (c / 256 mod 16))
       (hex_char (c / 16 mod 16)) (hex_char (c mod 16)) = Some c.
Proof.
  intros H. unfold hex4.
  assert (R1 : 0 <= c / 4096 < 16)
    by (split; [apply Z.div_pos; lia | apply Z.div_lt_upper_bound; lia]).
  assert (R2 : 0 <= (c / 256) mod 16 < 16) by (apply Z.mod_pos_bound; lia).
  assert (R3 : 0 <= (c / 16) mod 16 < 16) by (apply Z.mod_pos_bound; lia).
  assert (R4 : 0 <= c mod 16 < 16) by (apply Z.mod_pos_bound; lia).
  rewrite (hex_digit_char _ R1), (hex_digit_char _ R2),
    (hex_digit_char _ R3), (hex_digit_char _ R4).
  f_equal. pose proof (Z.div_mod c 16 ltac:(lia)).
  pose proof (Z.div_mod (c / 16) 16 ltac:(lia)).
  pose proof (Z.div_mod (c / 256) 16 ltac:(lia)).
  assert (c / 16 / 16 = c / 256) by (rewrite Z.div_div by lia; reflexivity).
  assert (c / 256 / 16 = c / 4096) by (rewrite Z.div_div by lia; reflexivity).
  lia.
Qed.

(** Reading back what [quote_unit] wrote gives the code unit. *)
Lemma string_chars_unit (c : codeunit) (tl : jsstring) :
  0 <= c < 65536 ->
  string_chars (quote_unit c ++ tl) = cons_char c (string_chars tl).
Proof.
  intros H. unfold quote_unit.
  repeat match goal with
         | |- context [if ?x =? ?k then _ else _] =>
             destruct (Z.eqb_spec x k);
               [subst; cbn [app]; now apply string_chars_escape |]
         end.
  destruct (_ || _) eqn:Hb.
  - unfold UnicodeEscape. cbn [app]. apply string_chars_u.
    now apply hex4_escape.
  - cbn [app]. apply orb_false_elim in Hb as [Hb _].
    apply orb_false_elim in Hb as [Hb _]. apply Z.ltb_ge in Hb.
    now apply string_chars_raw.
Qed.

Lemma quote_chars_cons (c l : codeunit) (r : jsstring) :
  quote_chars (c :: l :: r) =
  if is_leading_surrogate c && is_trailing_surrogate l
  then c :: l :: quote_chars r
  else quote_unit c ++ quote_chars (l :: r).
Proof. reflexivity. Qed.

Lemma string_chars_quote (n : nat) :
  forall s rest, (List.length s <= n)%nat -> code_units s ->
  string_chars (quote_chars s ++ 34 :: rest) = Some (s, rest).
Proof.
  induction n as [|n IH]; intros s rest Hn Hs.
  - destruct s; [reflexivity | simpl in Hn; lia].
  - destruct s as [|c r]; [reflexivity|].
    inversion Hs as [|? ? Hc Hr]; subst.
    destruct r as [|l r'].
    + cbn [quote_chars]. rewrite string_chars_unit by assumption.
      reflexivity.
    + rewrite quote_chars_cons.
      destruct (is_leading_surrogate c && is_trailing_surrogate l) eqn:Hp.
      * apply andb_prop in Hp as [H1 H2].
        unfold is_leading_surrogate in H1.
        unfold is_trailing_surrogate in H2.
        apply andb_prop in H1 as [H1 _]. apply andb_prop in H2 as [H2 _].
        apply Z.leb_le in H1. apply Z.leb_le in H2.
        inversion Hr as [|? ? Hl Hr']; subst.
        cbn [app]. rewrite !string_chars_raw by lia.
        rewrite IH by (simpl in Hn; try lia; assumption).
        reflexivity.
      * rewrite <- app_assoc, string_chars_unit by assumption.
        rewrite IH by (simpl in Hn |- *; try lia; assumption).
        reflexivity.
Qed.

Lemma value_string (f : nat) (s rest : jsstring) :
  code_units s ->
  value (S f) (34 :: quote_chars s ++ 34 :: rest) = Ok (JString s) rest.
Proof.
  intros Hs. cbn [value]. change (skip_ws (34 :: ?x)) with (34 :: x).
  cbn [skip_ws]. change (is_ws 34) with false. cbv iota.
  change (34 =? 123) with false. change (34 =? 91) with false.
  change (34 =? 34) with true. cbv iota.
  now rewrite (string_chars_quote _ s rest (le_n _) Hs).
Qed.

(** [JSON.parse] reads back the string [JSON.stringify] wrote. *)
Lemma parse_QuoteJSONString (s : jsstring) :
  code_units s -> Json.parse (QuoteJSONString s) = Some (JString s).
Proof.
  intros Hs. unfold Json.parse, QuoteJSONString.
  rewrite Nat.add_1_r. now rewrite value_string.
Qed.

End StringRoundTrip.

(** ** The text chunks of the generator, decoded *)

Section GeneratorChunks.

Import Json JsonStringify CustomProtocolDemo Generator.

Lemma hex_char_not_LF (d : Z) : 0 <= d < 16 -> hex_char d <> LF.
Proof.
  intros H. unfold hex_char, LF. destruct (Z.ltb_spec d 10); lia.
Qed.

Lemma quote_unit_no_LF (c : codeunit) :
  0 <= c < 65536 -> no_LF (quote_unit c).
Proof.
  intros H. unfold quote_unit, no_LF.
  repeat match goal with
         | |- context [if ?x =? ?k then _ else _] =>
             destruct (Z.eqb_spec x k);
               [repeat constructor; unfold LF; lia |]
         end.
  destruct (_ || _).
  - unfold UnicodeEscape.
    repeat constructor; try (unfold LF; lia);
      apply hex_char_not_LF;
      try (apply Z.mod_pos_bound; lia);
      split; [apply Z.div_pos; lia | apply Z.div_lt_upper_bound; lia].
  - repeat constructor. unfold LF. lia.
Qed.

Lemma quote_chars_no_LF (n : nat) :
  forall s, (List.length s <= n)%nat -> code_units s ->
  no_LF (quote_chars s).
Proof.
  induction n as [|n IH]; intros s Hn Hs.
  - destruct s; [constructor | simpl in Hn; lia].
  - destruct s as [|c r]; [constructor|].
    inversion Hs as [|? ? Hc Hr]; subst.
    destruct r as [|l r'].
    + now apply quote_unit_no_LF.
    + rewrite quote_chars_cons.
      destruct (is_leading_surrogate c && is_trailing_surrogate l) eqn:Hp.
      * apply andb_prop in Hp as [H1 H2].
        unfold is_leading_surrogate in H1.
        unfold is_trailing_surrogate in H2.
        apply andb_prop in H1 as [H1 _]. apply andb_prop in H2 as [H2 _].
        apply Z.leb_le in H1. apply Z.leb_le in H2.
        inversion Hr as [|? ? Hl Hr']; subst.
        constructor; [unfold LF; lia|]. constructor; [unfold LF; lia|].
        apply IH; [simpl in Hn; lia | assumption].
      * apply Forall_app. split; [now apply quote_unit_no_LF|].
        apply IH; [simpl in Hn |- *; lia | assumption].
Qed.

Lemma text_line_no_LF (s : jsstring) : code_units s -> no_LF (text_line s).
Proof.
  intros Hs. unfold text_line, QuoteJSONString.
  change (PROTOCOL.TEXT ++ js " " ++ 34 :: quote_chars s ++ [34])
    with (js "TEXT: " ++ [34] ++ quote_chars s ++ [34]).
  unfold no_LF. rewrite !Forall_app. repeat split.
  - cbv. repeat (constructor; [discriminate|]). constructor.
  - constructor; [discriminate | constructor].
  - now apply (quote_chars_no_LF _ s (le_n _)).
  - constructor; [discriminate | constructor].
Qed.

Lemma trimEnd_snoc (a : jsstring) (c : codeunit) :
  isWhiteSpace c = false -> trimEnd (a ++ [c]) = a ++ [c].
Proof.
  intros Hc. unfold trimEnd. rewrite rev_app_distr. cbn [rev app trimStart].
  rewrite Hc. cbn [rev]. now rewrite rev_involutive.
Qed.

Lemma trim_quoted (s : jsstring) :
  trim (js " " ++ QuoteJSONString s) = QuoteJSONString s.
Proof.
  unfold trim, QuoteJSONString.
  change (trimStart (js " " ++ 34 :: quote_chars s ++ [34]))
    with (34 :: quote_chars s ++ [34]).
  change (34 :: quote_chars s ++ [34]) with ((34 :: quote_chars s) ++ [34]).
  now apply trimEnd_snoc.
Qed.

Lemma startsWith_app (p x : jsstring) : startsWith (p ++ x) p = true.
Proof.
  induction p as [|c p IH]; simpl; [now destruct x|].
  now rewrite Z.eqb_refl.
Qed.

Lemma skipn_prefix (p x : jsstring) : skipn (List.length p) (p ++ x) = x.
Proof. induction p as [|c p IH]; simpl; [reflexivity | assumption]. Qed.

Lemma parseStreamLine_text_line (now s : jsstring) :
  code_units s ->
  parseStreamLine now (text_line s) =
    Some {| type := text; data := JString s;
            timestamp := now; raw := text_line s |}.
Proof.
  intros Hs.
  assert (Hin : In (PROTOCOL.TEXT, text) semantic_table)
    by (left; reflexivity).
  rewrite (parseStreamLine_matched now _ PROTOCOL.TEXT text Hin)
    by apply startsWith_app.
  unfold branch, text_line, slice. rewrite skipn_prefix, trim_quoted.
  now rewrite parse_QuoteJSONString.
Qed.

(** X14: the two decoders read back what [JSON.stringify] writes for
    a string: the line the generator builds from [TEXT:], a space and
    the stringified string decodes to a text event that carries the
    string, and [0:] followed by the stringified string decodes to a
    content event whose parsed value is the string. *)
Theorem decoders_invert_stringify (now s : jsstring) :
  code_units s ->
  parseStreamLine now (text_line s) =
    Some {| type := text; data := JString s;
            timestamp := now; raw := text_line s |} /\
  DebugPage.parseStreamEvent now (js "0:" ++ QuoteJSONString s) =
    {| DebugPage.timestamp := now;
       DebugPage.prefix := js "0";
       DebugPage.data := QuoteJSONString s;
       DebugPage.parsed := Some (JString s);
       DebugPage.type := DebugPage.content |}.
Proof.
  intros Hs. split; [now apply parseStreamLine_text_line|].
  assert (Hin : In (js "0:", (js "0", DebugPage.content)) compact_table)
    by (left; reflexivity).
  rewrite (parseStreamEvent_matched now _ (js "0:") (js "0")
             DebugPage.content Hin) by apply startsWith_app.
  unfold slice. rewrite skipn_prefix. unfold DebugPage.parse_or_raw.
  now rewrite parse_QuoteJSONString.
Qed.

Variable Number_toString : JsNumber -> jsstring.
Variable clock : nat -> jsstring.

(** X15: a chunk built the way the generator builds its text chunks
    ([TEXT:], a space, the stringified string and a line feed) makes
    the demo page log one text event that carries the string and append
    exactly the string to the accumulated text, without an error,
    whatever the string holds (quotes, line feeds, lone
    surrogates). *)
Theorem text_chunk_appends (p : page) (s : jsstring) :
  code_units s ->
  let r := process_lines Number_toString clock p (split_nl (text_chunk s)) in
  snd r = Returned /\
  responseText (fst r) = responseText p ++ s /\
  events (fst r) =
    events p ++ [{| type := text; data := JString s;
                    timestamp := clock (ticks p); raw := text_line s |}].
Proof.
  intros Hs. cbv zeta. unfold text_chunk.
  rewrite split_nl_line by now apply text_line_no_LF.
  change (split_nl []) with [@nil codeunit].
  cbn [process_lines].
  assert (Hnb : JsString.truthy (trim (text_line s)) = true).
  { apply (startsWith_truthy_trim _ 84 (js "EXT:")); [|reflexivity].
    apply (startsWith_app PROTOCOL.TEXT). }
  rewrite Hnb.
  rewrite (parseStreamLine_text_line (clock (ticks p)) s Hs).
  change (JsString.truthy (trim [])) with false. cbv iota.
  unfold processEvent. cbn [type data fst snd].
  unfold setResponseText, append_data. cbn [Json.truthy ToString].
  destruct s as [|c s']; cbn; repeat split; now rewrite ?app_nil_r.
Qed.

End GeneratorChunks.

(** ** How the loop of the demo page composes *)

Section LoopComposition.

Import CustomProtocolDemo.

Variable Number_toString : JsNumber -> jsstring.
Variable clock : nat -> jsstring.

(** X16: when the handling of an event throws, the loop ends there:
    what the stream still holds is not applied, and [startStream]
    clears the streaming flag all the same. *)
Theorem throw_ends_session
  (p : page) (pre post : list (jsstring * list happening)) :
  isStreaming p = false ->
  snd (for_await Number_toString clock (session_start p) pre) = Threw ->
  startStream Number_toString clock p (pre ++ post)
    = startStream Number_toString clock p pre /\
  isStreaming (startStream Number_toString clock p (pre ++ post)) = false.
Proof.
  intros Hp Ht. unfold startStream. rewrite Hp.
  change (begin_session p) with (session_start p). rewrite for_await_app.
  destruct (for_await Number_toString clock (session_start p) pre)
    as [p1 o].
  simpl in Ht. subst o. split; reflexivity.
Qed.

Lemma pop_inv {A : Type} (l r : list A) (x : A) :
  pop l = (Some x, r) -> l = r ++ [x].
Proof.
  unfold pop. destruct (rev l) as [|y t] eqn:E; [discriminate|].
  intros [= <- <-]. rewrite <- (rev_involutive l), E. reflexivity.
Qed.

Lemma split_nl_scan (s : jsstring) :
  split_nl s = fst (scan [] s) ++ [snd (scan [] s)].
Proof.
  apply pop_inv. apply (pop_split_scan s []). constructor.
Qed.

(** The lines of a text with a line feed inside: those before the line
    feed, then those after it. *)
Lemma split_nl_at_LF (a c : jsstring) :
  split_nl (a ++ LF :: c) = removelast (split_nl (a ++ [LF])) ++ split_nl c /\
  split_nl (a ++ [LF]) = removelast (split_nl (a ++ [LF])) ++ [[]].
Proof.
  rewrite !(split_nl_scan (a ++ _)), (split_nl_scan c), !scan_app.
  destruct (scan [] a) as [l1 r1]. simpl.
  destruct (scan [] c) as [ls r]. simpl.
  replace ((l1 ++ [r1]) ++ [[]]) with ((l1 ++ [r1]) ++ [@nil codeunit])
    by reflexivity.
  rewrite !removelast_last, <- !app_assoc. split; reflexivity.
Qed.

Lemma demo_process_lines_app (x y : list jsstring) (p : page) :
  process_lines Number_toString clock p (x ++ y) =
  match process_lines Number_toString clock p x with
  | (p1, Returned) => process_lines Number_toString clock p1 y
  | (p1, Threw) => (p1, Threw)
  end.
Proof.
  revert p. induction x as [|line r IH]; intros p; simpl.
  - reflexivity.
  - destruct (JsString.truthy (trim line)); [|apply IH].
    destruct (parseStreamLine (clock (ticks p)) line) as [e|]; [|apply IH].
    destruct (processEvent Number_toString (tick p) e) as [p1 o].
    destruct o; [apply IH | reflexivity].
Qed.

Lemma process_lines_aborted (lines : list jsstring) (p : page) :
  aborted (fst (process_lines Number_toString clock p lines)) = aborted p.
Proof.
  unfold aborted. now rewrite process_lines_controller.
Qed.

(** X17: the demo page keeps nothing between chunks, so a chunk that
    ends with a line feed and the chunk after it act as the one chunk
    made of both, when nothing happens in the delay between them. *)
Theorem chunks_merge_at_line_feed
  (p : page) (a c : jsstring) (delay : list happening)
  (rest : list (jsstring * list happening)) :
  for_await Number_toString clock p
    ((a ++ [LF], []) :: (c, delay) :: rest) =
  for_await Number_toString clock p ((a ++ LF :: c, delay) :: rest).
Proof.
  cbn [for_await]. destruct (aborted p) eqn:Ha; [reflexivity|].
  destruct (split_nl_at_LF a c) as [E1 E2].
  set (A := removelast (split_nl (a ++ [LF]))) in *.
  rewrite E1, E2, !demo_process_lines_app.
  pose proof (process_lines_aborted A p) as Hk.
  destruct (process_lines Number_toString clock p A) as [p1 o].
  simpl in Hk. destruct o; [|reflexivity].
  cbn [process_lines]. change (JsString.truthy (trim [])) with false.
  cbv iota. cbn [fold_left]. rewrite Hk, Ha. reflexivity.
Qed.

End LoopComposition.

(** ** The log of the debug console and the chunking *)

Section DebugChunking.

Variable clock : nat -> jsstring.

(** X20: the whole page the debug console ends with does not depend
    on how the transport cut the bytes into chunks: a session that is
    delivered the chunks one by one ends as the session that is
    delivered all their bytes in one chunk. *)
Theorem debug_session_any_splitting
  (p : DebugPage.page) (chunks : list (list byte)) :
  DebugPage.startStreaming clock p (delivered chunks) =
  DebugPage.startStreaming clock p (delivered [List.concat chunks]).
Proof.
  rewrite !startStreaming_delivered.
  rewrite (feed_all_concat chunks), (feed_all_concat [List.concat chunks])
    by constructor.
  replace (List.concat [List.concat chunks]) with (List.concat chunks)
    by (simpl; now rewrite app_nil_r).
  reflexivity.
Qed.

End DebugChunking.

(** ** Labels and colours *)

Section Views.

(** X19: the label and the colour the debug console gives an event,
    and the colour the demo page gives it, tell the five kinds apart:
    two kinds never share a label or a colour. *)
Theorem kinds_shown_apart :
  (forall a b, DebugView.getEventLabel a = DebugView.getEventLabel b ->
               a = b) /\
  (forall a b, DebugView.getEventColor a = DebugView.getEventColor b ->
               a = b) /\
  (forall a b, DemoView.getEventColor a = DemoView.getEventColor b ->
               a = b).
Proof.
  repeat split; intros a b H; destruct a, b;
    try reflexivity; cbv in H; discriminate H.
Qed.

End Views.

(** ** The further properties at sample inputs *)

Section MoreInstances.

Import Samples MoreSamples DebugSamples DemoSamples LoopSamples StringSamples.
Import CustomProtocolDemo.

Lemma ascii_lines_witness :
  ascii_only (List.concat ascii_chunks) /\
  snd (Reassembler.feed_all Reassembler.init ascii_chunks)
    = removelast (split_nl (map code (List.concat ascii_chunks))) /\
  Reassembler.buffer (fst (Reassembler.feed_all Reassembler.init ascii_chunks))
    = last (split_nl (map code (List.concat ascii_chunks))) [].
Proof.
  assert (H : ascii_only (List.concat ascii_chunks))
    by (repeat (constructor; [reflexivity|]); constructor).
  split; [exact H|]. apply (ascii_lines ascii_chunks H).
Defined.

Lemma abort_not_recorded_witness :
  transport_failure (FetchResolved aborted_response) ascii_chunks abort_error /\
  is_AbortError abort_error = true /\
  DebugPage.events
    (DebugPage.startStreaming clock0 debug0 (FetchResolved aborted_response))
    = DebugPage.events
        (DebugPage.startStreaming clock0 debug0 (delivered ascii_chunks)) /\
  DebugPage.isStreaming
    (DebugPage.startStreaming clock0 debug0 (FetchResolved aborted_response))
    = false.
Proof.
  assert (H : transport_failure (FetchResolved aborted_response)
                ascii_chunks abort_error)
    by (apply (read_failure aborted_response ascii_chunks abort_error []);
        reflexivity).
  split; [exact H|]. split; [reflexivity|].
  apply (abort_not_recorded clock0 debug0 (FetchResolved aborted_response)
           ascii_chunks abort_error H).
  reflexivity.
Defined.

Lemma debug_session_fresh_witness :
  DebugPage.input debug0 = DebugPage.input debug_used /\
  DebugPage.ticks debug0 = DebugPage.ticks debug_used /\
  DebugPage.events
    (DebugPage.startStreaming clock0 debug0 (delivered ascii_chunks))
    = DebugPage.events
        (DebugPage.startStreaming clock0 debug_used (delivered ascii_chunks)).
Proof.
  split; [reflexivity|]. split; [reflexivity|].
  apply (debug_session_fresh clock0 debug0 debug_used
           (delivered ascii_chunks)); reflexivity.
Defined.

Lemma prefix_unambiguous_witness :
  In PROTOCOL.TEXT all_prefixes /\
  startsWith (q "TEXT: `Hi`") PROTOCOL.TEXT = true /\
  PROTOCOL.TEXT = PROTOCOL.TEXT.
Proof.
  assert (H : In PROTOCOL.TEXT all_prefixes)
    by (do 4 right; left; reflexivity).
  split; [exact H|]. split; [reflexivity|].
  apply (prefix_unambiguous (q "TEXT: `Hi`") PROTOCOL.TEXT PROTOCOL.TEXT
           H H); reflexivity.
Defined.

Lemma parseStreamLine_sound_witness :
  parseStreamLine now0 (q "TEXT: `Hi`") =
    Some {| type := text; data := JString (js "Hi");
            timestamp := now0; raw := q "TEXT: `Hi`" |} /\
  exists pfx,
    In (pfx, text) semantic_table /\
    startsWith (q "TEXT: `Hi`") pfx = true /\
    Json.parse (trim (slice (List.length pfx) (q "TEXT: `Hi`")))
      = Some (JString (js "Hi")) /\
    q "TEXT: `Hi`" = q "TEXT: `Hi`" /\ now0 = now0 /\
    nonblank (q "TEXT: `Hi`") = true.
Proof.
  split; [reflexivity|].
  apply (parseStreamLine_sound now0 (q "TEXT: `Hi`")
           {| type := text; data := JString (js "Hi");
              timestamp := now0; raw := q "TEXT: `Hi`" |}).
  reflexivity.
Defined.

Lemma demo_session_fresh_witness :
  isStreaming demo0 = false /\ isStreaming demo_used = false /\
  ticks demo0 = ticks demo_used /\
  responseText (startStream integer_toString clock0 demo0 uninterrupted)
    = responseText
        (startStream integer_toString clock0 demo_used uninterrupted) /\
  events (startStream integer_toString clock0 demo0 uninterrupted)
    = events (startStream integer_toString clock0 demo_used uninterrupted).
Proof.
  repeat (split; [reflexivity|]).
  apply (demo_session_fresh integer_toString clock0 demo0 demo_used
           uninterrupted); reflexivity.
Defined.

Lemma for_await_append_only_witness :
  no_restart stopped_after_first = true /\
  exists t es,
    responseText
      (fst (for_await integer_toString clock0 streaming0 stopped_after_first))
      = responseText streaming0 ++ t /\
    events
      (fst (for_await integer_toString clock0 streaming0 stopped_after_first))
      = events streaming0 ++ es.
Proof.
  split; [reflexivity|].
  apply (for_await_append_only integer_toString clock0 stopped_after_first
           streaming0).
  reflexivity.
Defined.

Lemma tricky_code_units : code_units tricky.
Proof. repeat (constructor; [lia|]). constructor. Qed.

Lemma decoders_invert_stringify_witness :
  code_units tricky /\
  parseStreamLine now0 (Generator.text_line tricky) =
    Some {| type := text; data := JString tricky;
            timestamp := now0; raw := Generator.text_line tricky |} /\
  DebugPage.parseStreamEvent now0
    (js "0:" ++ JsonStringify.QuoteJSONString tricky) =
    {| DebugPage.timestamp := now0;
       DebugPage.prefix := js "0";
       DebugPage.data := JsonStringify.QuoteJSONString tricky;
       DebugPage.parsed := Some (JString tricky);
       DebugPage.type := DebugPage.content |}.
Proof.
  split; [exact tricky_code_units|].
  apply (decoders_invert_stringify now0 tricky tricky_code_units).
Defined.

Lemma text_chunk_appends_witness :
  code_units tricky /\
  snd (process_lines integer_toString clock0 streaming0
         (split_nl (Generator.text_chunk tricky))) = Returned /\
  responseText
    (fst (process_lines integer_toString clock0 streaming0
            (split_nl (Generator.text_chunk tricky))))
    = responseText streaming0 ++ tricky /\
  events
    (fst (process_lines integer_toString clock0 streaming0
            (split_nl (Generator.text_chunk tricky))))
    = events streaming0 ++
      [{| type := text; data := JString tricky;
          timestamp := clock0 (ticks streaming0);
          raw := Generator.text_line tricky |}].
Proof.
  split; [exact tricky_code_units|].
  apply (text_chunk_appends integer_toString clock0 streaming0 tricky
           tricky_code_units).
Defined.

Lemma throw_ends_session_witness :
  isStreaming demo0 = false /\
  snd (for_await integer_toString clock0 (session_start demo0) null_call)
    = Threw /\
  startStream integer_toString clock0 demo0 (null_call ++ uninterrupted)
    = startStream integer_toString clock0 demo0 null_call /\
  isStreaming
    (startStream integer_toString clock0 demo0 (null_call ++ uninterrupted))
    = false.
Proof.
  split; [reflexivity|]. split; [reflexivity|].
  apply (throw_ends_session integer_toString clock0 demo0 null_call
           uninterrupted); reflexivity.
Defined.

(** The session that meets the function call with the payload [null]:
    the text event before it and the call itself are logged, the text
    is [Hi], and the flag is cleared. *)
Example null_call_session :
  let p := startStream integer_toString clock0 demo0
             (null_call ++ uninterrupted) in
  responseText p = js "Hi" /\
  map type (events p) = [text; function_call] /\
  isStreaming p = false.
Proof. repeat split; reflexivity. Qed.

(** The text chunks of [simulateStream] are built as [text_chunk]
    builds them. *)
Example simulateStream_text_chunks :
  nth 1 simulateStream [] =
    Generator.text_chunk
      (js "I'll check the weather in San Francisco for you.") /\
  nth 4 simulateStream [] =
    Generator.text_chunk
      (js " The current temperature in San Francisco is ") /\
  nth 5 simulateStream [] =
    Generator.text_chunk (js "68" ++ [176] ++ js "F") /\
  nth 6 simulateStream [] =
    Generator.text_chunk (js " with foggy conditions.").
Proof. repeat split; reflexivity. Qed.

(** What [JSON.stringify] writes for [tricky]. *)
Example QuoteJSONString_tricky :
  JsonStringify.QuoteJSONString tricky =
    [34; 92; 34; 92; 110; 92; 92] ++ js "\ud800" ++ [233; 92; 116; 34].
Proof. reflexivity. Qed.

(** A loop left pending by an earlier session shows in the delays of
    the next one: the session of one text chunk ends with the text
    [new] when nothing happens in its delay, and with [newold] when a
    pending loop takes a turn there. *)
Example pending_loop_leaks :
  responseText
    (startStream integer_toString clock0 demo_used
       [(q "TEXT: `new`" ++ [LF], [])]) = js "new" /\
  responseText
    (startStream integer_toString clock0 demo_used
       [(q "TEXT: `new`" ++ [LF],
         [OtherTurn (Some (q "TEXT: `old`" ++ [LF]))])]) = js "newold".
Proof. split; reflexivity. Qed.

(** The demo page keeps no buffer: a line cut in two by a chunk
    boundary is read as two lines, and here neither is decoded. *)
Example demo_cut_line_lost :
  events (fst (for_await integer_toString clock0 (session_start demo0)
                 [(q "TEXT: `H", []); (q "i`" ++ [LF], [])])) = [] /\
  map type
    (events (fst (for_await integer_toString clock0 (session_start demo0)
                    [(q "TEXT: `Hi`" ++ [LF], [])]))) = [text].
Proof. split; reflexivity. Qed.

End MoreInstances.
